(** * Guard-X: fleet recovery and signal-integrity controllers

    A shallow embedding of [Backend/drone_management.py]
    ([DroneFleetManager]) and [Backend/anti_jamming.py]
    ([AntiJammingSystem]).

    Conventions.
    - Python numbers (int / float) are rationals [Q]; every comparison
      and every [max] / [min] of the source is kept.
    - A dict key that may be absent is an [option] field; [dict.get(k, d)]
      is [default d].
    - [datetime.now()] is a clock value [now : nat] handed to the operation.
    - [asyncio.create_task] appends the new task to a list kept in the
      state; the list only grows, so "no task launched" is "list unchanged".
    - Alert callbacks are external observers: what is recorded is that an
      alert was handed to them. *)

From Stdlib Require Import QArith Qminmax Lqa.
From stdpp Require Import gmap strings list fin_maps.

Local Open Scope Q_scope.

(** Severity labels, shared by both controllers' alerts. *)
Inductive severity := LOW | MEDIUM | HIGH | CRITICAL.

(** ** Fleet recovery controller ([drone_management.py]) *)

Module Fleet.

(** Values of the ['status'] key; [other_status] stands for a missing key
    or any other string. *)
Inductive status_t := active | returning | landed | other_status.

(** Values written under ['rth_reason']. *)
Inductive reason_t := low_battery | critical_battery.

#[global] Instance status_eq_dec : EqDecision status_t.
Proof. solve_decision. Defined.

#[global] Instance reason_eq_dec : EqDecision reason_t.
Proof. solve_decision. Defined.

(** One drone dict. [battery = None] is a missing or non-numeric battery
    (the [isinstance(battery, (int, float))] test fails). *)
Record drone := mk_drone {
  lat : option Q;
  lon : option Q;
  alt : option Q;
  battery : option Q;
  status : status_t;
  returning_home : option bool;
  rth_reason : option reason_t;
  emergency_mode : option bool;
  rth_initiated : option nat;
  landed_at : option nat
}.

(** The dict returned by [calculate_return_path]. *)
Record return_info := mk_return_info {
  distance : Q;
  eta : Q;
  home_base : Q * Q;
  emergency_speed : bool
}.

(** Background tasks created with [asyncio.create_task]. *)
Inductive task :=
  | journey_task (drone_id : string) (info : return_info)
  | emergency_journey_task (drone_id : string) (info : return_info).

Inductive monitor_task := battery_monitor | health_monitor | position_updater.

Inductive alert_type := auto_rth_alert | emergency_rth_alert | drone_landed_alert.

(** The [alert_data] dict handed to [notify_operators]. *)
Record alert := mk_alert {
  alert_kind : alert_type;
  alert_drone : string;
  alert_battery : option Q;
  alert_eta : option Q;
  alert_severity : option severity;
  alert_reason : option reason_t;
  alert_time : nat
}.

(** The [DroneFleetManager] object. [spawned] collects the journey tasks
    created so far, [alerts] the alerts given to [notify_operators]. *)
Record fleet := mk_fleet {
  drones : gmap string drone;
  monitoring : bool;
  _tasks : list monitor_task;
  spawned : list task;
  alerts : list alert
}.

Definition rth_threshold : Q := 20.
Definition emergency_rth_threshold : Q := 10.
Definition home_lat : Q := 28.7041.
Definition home_lon : Q := 77.1025.

Definition set_drones (f : gmap string drone -> gmap string drone) (s : fleet) : fleet :=
  mk_fleet (f (drones s)) (monitoring s) (_tasks s) (spawned s) (alerts s).

Definition create_task (t : task) (s : fleet) : fleet :=
  mk_fleet (drones s) (monitoring s) (_tasks s) (spawned s ++ [t]) (alerts s).

(** [notify_operators]: every callback error is caught, so the call always
    returns; the alert is recorded. *)
Definition notify_operators (a : alert) (s : fleet) : fleet :=
  mk_fleet (drones s) (monitoring s) (_tasks s) (spawned s) (alerts s ++ [a]).

(** [start_monitoring], up to the point where the three loops are running:
    the guard, the flag and the task list. *)
Definition start_monitoring (s : fleet) : fleet :=
  if monitoring s then s
  else mk_fleet (drones s) true
         [battery_monitor; health_monitor; position_updater]
         (spawned s) (alerts s).

Section WithDistance.

(** [calculate_distance] is the haversine formula, built from [math.sin],
    [math.cos] and [math.atan2]; the control logic only passes its result
    on, so it is a parameter here. *)
Variable calculate_distance : Q -> Q -> Q -> Q -> Q.

Definition calculate_return_path (drone_id : string) (s : fleet) : return_info :=
  match drones s !! drone_id with
  | None => mk_return_info 0 0 (0, 0) false
  | Some d =>
      let dist := calculate_distance (default 0 (lat d)) (default 0 (lon d))
                    home_lat home_lon in
      let speed_m_s := 15 in
      let eta_seconds := if Qle_bool speed_m_s 0 then 0 else dist / speed_m_s in
      mk_return_info dist eta_seconds (home_lat, home_lon) false
  end.

Definition calculate_emergency_return (drone_id : string) (s : fleet) : return_info :=
  let r := calculate_return_path drone_id s in
  mk_return_info (distance r) (eta r * 0.7) (home_base r) true.

Definition send_rth_command (drone_id : string) (info : return_info) (s : fleet) : fleet :=
  create_task (journey_task drone_id info) s.

Definition send_emergency_rth_command (drone_id : string) (info : return_info)
    (s : fleet) : fleet :=
  create_task (emergency_journey_task drone_id info) s.

(** The [dict.update] of [auto_rth]. *)
Definition auto_rth_update (now : nat) (d : drone) : drone :=
  mk_drone (lat d) (lon d) (alt d) (battery d) returning (Some true)
    (Some low_battery) (emergency_mode d) (Some now) (landed_at d).

(** The [dict.update] of [emergency_rth]. *)
Definition emergency_rth_update (now : nat) (d : drone) : drone :=
  mk_drone (lat d) (lon d) (alt d) (battery d) returning (Some true)
    (Some critical_battery) (Some true) (Some now) (landed_at d).

Definition auto_rth (now : nat) (drone_id : string) (battery_level : option Q)
    (s : fleet) : fleet :=
  match drones s !! drone_id with
  | None => s
  | Some d =>
      let s1 := set_drones (insert drone_id (auto_rth_update now d)) s in
      let info := calculate_return_path drone_id s1 in
      let s2 := send_rth_command drone_id info s1 in
      notify_operators
        (mk_alert auto_rth_alert drone_id battery_level (Some (eta info))
           (Some MEDIUM) None now) s2
  end.

Definition emergency_rth (now : nat) (drone_id : string) (battery_level : option Q)
    (s : fleet) : fleet :=
  match drones s !! drone_id with
  | None => s
  | Some d =>
      let s1 := set_drones (insert drone_id (emergency_rth_update now d)) s in
      let info := calculate_emergency_return drone_id s1 in
      let s2 := send_emergency_rth_command drone_id info s1 in
      notify_operators
        (mk_alert emergency_rth_alert drone_id battery_level (Some (eta info))
           (Some CRITICAL) None now) s2
  end.

Definition set_battery (b : Q) (d : drone) : drone :=
  mk_drone (lat d) (lon d) (alt d) (Some b) (status d) (returning_home d)
    (rth_reason d) (emergency_mode d) (rth_initiated d) (landed_at d).

(** [self.drones[drone_id]['battery'] = b]. *)
Definition store_battery (drone_id : string) (b : Q) (s : fleet) : fleet :=
  set_drones (alter (set_battery b) drone_id) s.

(** Body of the [for drone_id, drone in list(self.drones.items())] loop of
    [monitor_battery_levels]. [status] and [battery] are read once at the
    top; the later [drone.get('returning_home', False)] reads the dict
    again, after a possible RTH has updated it. *)
Definition monitor_drone (now : nat) (drone_id : string) (s : fleet) : fleet :=
  match drones s !! drone_id with
  | None => s
  | Some d =>
      match status d, battery d with
      | active, Some b =>
          let s1 :=
            if Qle_bool b emergency_rth_threshold then
              emergency_rth now drone_id (Some b) s
            else if Qle_bool b rth_threshold
                    && negb (default false (returning_home d)) then
              auto_rth now drone_id (Some b) s
            else s in
          match drones s1 !! drone_id with
          | Some d1 =>
              if negb (default false (returning_home d1)) then
                store_battery drone_id (Qmax 0 (b - 0.5)) s1
              else s1
          | None => s1
          end
      | landed, Some b =>
          if negb (Qle_bool 100 b) then
            store_battery drone_id (Qmin 100 (b + 2)) s
          else s
      | _, _ => s
      end
  end.

(** One pass of the [while self.monitoring] loop over the snapshot
    [list(self.drones.items())]. *)
Definition monitor_cycle (now : nat) (s : fleet) : fleet :=
  foldl (fun acc kv => monitor_drone now kv.1 acc) s (map_to_list (drones s)).

(** The [dict.update] of [land_drone]. *)
Definition land_update (now : nat) (d : drone) : drone :=
  mk_drone (Some home_lat) (Some home_lon) (Some 0) (battery d) landed
    (Some false) (rth_reason d) (Some false) (rth_initiated d) (Some now).

Definition land_drone (now : nat) (drone_id : string) (s : fleet) : fleet :=
  match drones s !! drone_id with
  | None => s
  | Some d =>
      let d' := land_update now d in
      let s1 := set_drones (insert drone_id d') s in
      notify_operators
        (mk_alert drone_landed_alert drone_id (battery d') None None
           (rth_reason d') now) s1
  end.

(** One iteration of the [for step in range(steps + 1)] loop of
    [simulate_return_journey], with [steps = 10]. *)
Definition journey_update (home : Q * Q) (step : nat) (d : drone) : drone :=
  let progress := inject_Z (Z.of_nat step) / 10 in
  let cur_lat := default home.1 (lat d) in
  let cur_lon := default home.2 (lon d) in
  let current_lat := cur_lat + (home.1 - cur_lat) * progress in
  let current_lon := cur_lon + (home.2 - cur_lon) * progress in
  let current_alt := Qmax 0 (default 50 (alt d) * (1 - progress)) in
  let battery' :=
    match battery d with
    | Some b => Some (Qmax 0 (b - 0.5 * (1 + progress)))
    | None => None
    end in
  mk_drone (Some current_lat) (Some current_lon) (Some current_alt) battery'
    (status d) (returning_home d) (rth_reason d) (emergency_mode d)
    (rth_initiated d) (landed_at d).

Definition journey_step (home : Q * Q) (step : nat) (drone_id : string)
    (s : fleet) : fleet :=
  set_drones (alter (journey_update home step) drone_id) s.

(** [simulate_return_journey] run to completion: the eleven steps, then
    [land_drone]. An unknown drone returns at once. *)
Definition simulate_return_journey (now : nat) (drone_id : string)
    (info : return_info) (s : fleet) : fleet :=
  match drones s !! drone_id with
  | None => s
  | Some _ =>
      let s1 := foldl (fun acc step => journey_step (home_base info) step drone_id acc)
                  s (seq 0 11) in
      land_drone now drone_id s1
  end.

(** [emergency_landing_procedures] writes a JSON log; both [os.makedirs]
    and the write sit in [try] / [except], so the call returns whether or
    not the write succeeds, and it does not touch the fleet. *)
Definition emergency_landing_procedures (write_ok : bool) (drone_id : string)
    (s : fleet) : fleet := s.

Definition simulate_emergency_return_journey (write_ok : bool) (now : nat)
    (drone_id : string) (info : return_info) (s : fleet) : fleet :=
  emergency_landing_procedures write_ok drone_id
    (simulate_return_journey now drone_id info s).

(** [manual_rth]: the returned bool and the new state. The battery
    reading handed to [auto_rth] is only copied into the alert. *)
Definition manual_rth (now : nat) (drone_id : string) (s : fleet) : bool * fleet :=
  match drones s !! drone_id with
  | Some d => (true, auto_rth now drone_id (battery d) s)
  | None => (false, s)
  end.

(** What one monitor cycle does to a single record: the per-record
    reading of [monitor_drone], used to state the effect of a cycle. *)
Definition monitor_record (now : nat) (d : drone) : drone :=
  match status d, battery d with
  | active, Some b =>
      if Qle_bool b emergency_rth_threshold then emergency_rth_update now d
      else if Qle_bool b rth_threshold
              && negb (default false (returning_home d)) then
        auto_rth_update now d
      else if negb (default false (returning_home d)) then
        set_battery (Qmax 0 (b - 0.5)) d
      else d
  | landed, Some b =>
      if negb (Qle_bool 100 b) then set_battery (Qmin 100 (b + 2)) d else d
  | _, _ => d
  end.

Definition task_drone (t : task) : string :=
  match t with
  | journey_task i _ => i
  | emergency_journey_task i _ => i
  end.

(** *** The controller as a transition system

    [emergency_rth_all] gathers one [emergency_rth] per unit that is
    [active] when the command is issued. *)
Definition emergency_rth_all (now : nat) (s : fleet) : fleet :=
  let active_drones :=
    filter (fun kv => status kv.2 = active) (map_to_list (drones s)) in
  foldl (fun acc kv => emergency_rth now kv.1 (battery kv.2) acc) s active_drones.

(** The operations that touch the fleet store. The journey of a unit is
    cut at its [await asyncio.sleep] points into [op_journey_step]s and the
    final [op_land], so that any other operation may run in between. *)
Inductive op :=
  | op_start_monitoring
  | op_monitor_cycle (now : nat)
  | op_manual_rth (now : nat) (drone_id : string)
  | op_emergency_rth_all (now : nat)
  | op_journey_step (home : Q * Q) (step : nat) (drone_id : string)
  | op_land (now : nat) (drone_id : string).

Definition run_op (o : op) (s : fleet) : fleet :=
  match o with
  | op_start_monitoring => start_monitoring s
  | op_monitor_cycle now => monitor_cycle now s
  | op_manual_rth now i => (manual_rth now i s).2
  | op_emergency_rth_all now => emergency_rth_all now s
  | op_journey_step home step i => journey_step home step i s
  | op_land now i => land_drone now i s
  end.

Definition run (ops : list op) (s : fleet) : fleet :=
  foldl (fun acc o => run_op o acc) s ops.

(** A property of records kept by every update the controller performs. *)
Record stable (P : drone -> Prop) : Prop := {
  stable_auto : forall now d, P d -> P (auto_rth_update now d);
  stable_emergency : forall now d, P d -> P (emergency_rth_update now d);
  stable_monitor : forall now d, P d -> P (monitor_record now d);
  stable_journey : forall home step d, P d -> P (journey_update home step d);
  stable_land : forall now d, P d -> P (land_update now d)
}.

(** The record of [id] is present and satisfies [P]. *)
Definition holds (P : drone -> Prop) (id : string) (s : fleet) : Prop :=
  exists d, drones s !! id = Some d /\ P d.

(** The battery is a number and a percentage. *)
Definition battery_ok (d : drone) : Prop :=
  exists b, battery d = Some b /\ 0 <= b /\ b <= 100.

(** The battery is a number and not negative. *)
Definition battery_nonneg (d : drone) : Prop :=
  exists b, battery d = Some b /\ 0 <= b.

(** What [land_drone] leaves in a record. *)
Definition landed_at_home (now : nat) (d : drone) : Prop :=
  status d = landed /\ returning_home d = Some false /\
  emergency_mode d = Some false /\
  lat d = Some home_lat /\ lon d = Some home_lon /\ alt d = Some 0 /\
  landed_at d = Some now.

(** [emergency_mode] is set only while the unit is returning. *)
Definition consistent (d : drone) : Prop :=
  emergency_mode d = Some true -> status d = returning.

End WithDistance.

(** The four records of [sample_drones], as [add_drone] stores them. *)
Definition config_drone (la lo al b : Q) : drone :=
  mk_drone (Some la) (Some lo) (Some al) (Some b) active None None None None None.

Definition sample_drones : gmap string drone :=
  <["GUARD-01"%string := config_drone 28.7041 77.1025 120.4 78]>
  (<["GUARD-02"%string := config_drone 28.7055 77.1100 95.1 25]>
  (<["GUARD-03"%string := config_drone 28.7000 77.1000 140.0 15]>
  (<["GUARD-04"%string := config_drone 28.7020 77.0950 80.0 91]> ∅))).

(** The module-level [drone_fleet]. *)
Definition drone_fleet : fleet := mk_fleet sample_drones false [] [] [].

(** A distance function for running the controller on examples; the
    control decisions do not depend on it. *)
Definition flat_distance (lat1 lon1 lat2 lon2 : Q) : Q := 0.

(** A fifth unit with a critical battery, and the fleet holding it. *)
Definition critical_drone : drone := config_drone 28.7010 77.1010 60 8.

Definition test_fleet : fleet :=
  mk_fleet (<["GUARD-05"%string := critical_drone]> sample_drones) true
    [battery_monitor; health_monitor; position_updater] [] [].

(** *** The rest of [DroneFleetManager] *)

(** [add_drone]: [drone_id] is what [drone_data.get('drone_id')] returns
    ([None] when the key is absent); a missing or empty id raises
    [ValueError], rendered as [None]. Otherwise the record is stored under
    the id, replacing an earlier one. *)
Definition add_drone (drone_id : option string) (drone_data : drone) (s : fleet)
    : option fleet :=
  match drone_id with
  | None => None
  | Some i =>
      if decide (i = ""%string) then None
      else Some (set_drones (insert i drone_data) s)
  end.

(** The counters of [get_fleet_status]. *)
Record fleet_status := mk_fleet_status {
  total_drones : nat;
  active_drones : nat;
  returning_drones : nat;
  low_battery_drones : nat;
  status_drones : gmap string drone;
  status_monitoring : bool
}.

(** [isinstance(d.get('battery'), (int, float)) and d.get('battery') <= self.rth_threshold]. *)
Definition low_battery_reading (d : drone) : bool :=
  match battery d with
  | Some b => Qle_bool b rth_threshold
  | None => false
  end.

Definition get_fleet_status (s : fleet) : fleet_status :=
  let values := map_to_list (drones s) in
  mk_fleet_status
    (size (drones s))
    (length (filter (fun kv => status kv.2 = active) values))
    (length (filter (fun kv => default false (returning_home kv.2) = true) values))
    (length (filter (fun kv => low_battery_reading kv.2 = true) values))
    (drones s)
    (monitoring s).

(** The two assignments of [update_drone_positions]. *)
Definition position_update (d : drone) : drone :=
  mk_drone (Some (default 0 (lat d) + 0.00001)) (Some (default 0 (lon d) - 0.00001))
    (alt d) (battery d) (status d) (returning_home d) (rth_reason d)
    (emergency_mode d) (rth_initiated d) (landed_at d).

(** Body of the loop of [update_drone_positions]. *)
Definition update_drone_position (drone_id : string) (s : fleet) : fleet :=
  match drones s !! drone_id with
  | None => s
  | Some d =>
      if bool_decide (status d = active) && negb (default false (returning_home d))
      then set_drones (alter position_update drone_id) s
      else s
  end.

(** One pass of [update_drone_positions] over the snapshot of the store. *)
Definition update_drone_positions (s : fleet) : fleet :=
  foldl (fun acc kv => update_drone_position kv.1 acc) s (map_to_list (drones s)).

(** What a position pass does to one record. *)
Definition position_record (d : drone) : drone :=
  if bool_decide (status d = active) && negb (default false (returning_home d))
  then position_update d else d.

(** The battery decrement of journey step [step]. *)
Definition journey_cost (step : nat) : Q :=
  0.5 * (1 + inject_Z (Z.of_nat step) / 10).

(** The battery after the journey steps [steps], from battery [b]. *)
Definition journey_battery (b : Q) (steps : list nat) : Q :=
  foldl (fun acc step => Qmax 0 (acc - journey_cost step)) b steps.

(** The sum of the decrements of the steps [steps]. *)
Definition journey_total (steps : list nat) : Q :=
  foldr (fun step acc => journey_cost step + acc) 0 steps.

(** A distance function for examples: 1500 m from anywhere. *)
Definition fixed_distance (lat1 lon1 lat2 lon2 : Q) : Q := 1500.

(** The part of a record that the journey steps do not write. *)
Definition flags (d : drone)
    : status_t * option bool * option reason_t * option bool * option nat
      * option nat :=
  (status d, returning_home d, rth_reason d, emergency_mode d, rth_initiated d,
   landed_at d).

(** Journey steps only. *)
Definition journey_steps_only (ops : list op) : Prop :=
  Forall (fun o => match o with op_journey_step _ _ _ => True | _ => False end) ops.

(** No [land_drone] for [id] among the operations. *)
Definition no_landing (id : string) (ops : list op) : Prop :=
  Forall (fun o => match o with op_land _ i => i <> id | _ => True end) ops.

End Fleet.

(** ** Signal-integrity controller ([anti_jamming.py]) *)

Module Jamming.

(** The [jamming_type] argument; [other_type] is any string outside the
    four keys of [severity_scores] (the API layer passes ['test']). *)
Inductive jamming_type :=
  | signal_drop | network | rf_interference | gps
  | other_type (name : string).

Inductive channel := ch_wifi | ch_cellular | ch_ethernet.

#[global] Instance channel_eq_dec : EqDecision channel.
Proof. solve_decision. Defined.

(** The keys of the [details] dict that the controller reads. *)
Record details := mk_details {
  drop_percent : option Q;
  packet_loss : option Q;
  interference_level : option Q;
  available : option bool
}.

(** An entry of [signal_strength_history]. *)
Record signal_sample := mk_sample {
  timestamp : nat;
  wifi : option Q;
  cellular : option Q
}.

Record jamming_event := mk_event {
  ev_type : jamming_type;
  ev_timestamp : nat;
  ev_details : details;
  ev_severity : severity
}.

Inductive countermeasure :=
  | switched_to (c : channel)
  | increased_power
  | frequency_hopping
  | evidence_stored.

Inductive monitor :=
  | signal_monitor | network_monitor | interference_monitor | gps_monitor.

(** Where a running [handle_potential_jamming] coroutine stands: before
    [activate_countermeasures], before the callback loop, or in
    [asyncio.sleep(30)]. *)
Inductive pc :=
  | at_countermeasures (e : jamming_event)
  | at_callbacks (e : jamming_event)
  | at_cooldown.

(** A registered callback; the result tells whether it raises. *)
Definition callback := jamming_event -> bool.

(** The [AntiJammingSystem] object, with the running tasks and, as logs,
    what it has done so far: events created, countermeasures taken,
    evidence files written, callback invocations. *)
Record system := mk_system {
  is_monitoring : bool;
  jamming_detected : bool;
  signal_strength_history : list signal_sample;
  current_channel : channel;
  alert_callbacks : list callback;
  monitor_tasks : list monitor;
  handlers : list pc;
  events : list jamming_event;
  activated : list countermeasure;
  evidence : list (jamming_event * list signal_sample);
  notified : list (nat * jamming_event * bool)
}.

Definition signal_drop_threshold : Q := 30.
Definition interference_threshold : Q := 0.8.
Definition packet_loss_threshold : Q := 15.
Definition backup_channels : list channel := [ch_wifi; ch_cellular; ch_ethernet].

Definition set_jamming_detected (b : bool) (s : system) : system :=
  mk_system (is_monitoring s) b (signal_strength_history s) (current_channel s)
    (alert_callbacks s) (monitor_tasks s) (handlers s) (events s) (activated s)
    (evidence s) (notified s).

Definition set_current_channel (c : channel) (s : system) : system :=
  mk_system (is_monitoring s) (jamming_detected s) (signal_strength_history s) c
    (alert_callbacks s) (monitor_tasks s) (handlers s) (events s) (activated s)
    (evidence s) (notified s).

Definition set_handlers (f : list pc -> list pc) (s : system) : system :=
  mk_system (is_monitoring s) (jamming_detected s) (signal_strength_history s)
    (current_channel s) (alert_callbacks s) (monitor_tasks s) (f (handlers s))
    (events s) (activated s) (evidence s) (notified s).

Definition log_event (e : jamming_event) (s : system) : system :=
  mk_system (is_monitoring s) (jamming_detected s) (signal_strength_history s)
    (current_channel s) (alert_callbacks s) (monitor_tasks s) (handlers s)
    (events s ++ [e]) (activated s) (evidence s) (notified s).

Definition log_activated (c : countermeasure) (s : system) : system :=
  mk_system (is_monitoring s) (jamming_detected s) (signal_strength_history s)
    (current_channel s) (alert_callbacks s) (monitor_tasks s) (handlers s)
    (events s) (activated s ++ [c]) (evidence s) (notified s).

Definition log_evidence (e : jamming_event) (s : system) : system :=
  mk_system (is_monitoring s) (jamming_detected s) (signal_strength_history s)
    (current_channel s) (alert_callbacks s) (monitor_tasks s) (handlers s)
    (events s) (activated s)
    (evidence s ++ [(e, drop (length (signal_strength_history s) - 20)
                          (signal_strength_history s))])
    (notified s).

Definition log_notified (l : list (nat * jamming_event * bool)) (s : system) : system :=
  mk_system (is_monitoring s) (jamming_detected s) (signal_strength_history s)
    (current_channel s) (alert_callbacks s) (monitor_tasks s) (handlers s)
    (events s) (activated s) (evidence s) (notified s ++ l).

(** [start_monitoring]: sets the flag and creates the four monitor tasks. *)
Definition start_monitoring (s : system) : system :=
  mk_system true (jamming_detected s) (signal_strength_history s)
    (current_channel s) (alert_callbacks s)
    (monitor_tasks s ++
       [signal_monitor; network_monitor; interference_monitor; gps_monitor])
    (handlers s) (events s) (activated s) (evidence s) (notified s).

(** The [severity_scores] dict, looked up at [jamming_type] with default 50. *)
Definition severity_scores (ty : jamming_type) (d : details) : Q :=
  match ty with
  | signal_drop => default 0 (drop_percent d) / 10
  | network => default 0 (packet_loss d) / 5
  | rf_interference => default 0 (interference_level d) * 100
  | gps => if negb (default true (available d)) then 80 else 20
  | other_type _ => 50
  end.

(** The [if score >= 80 ... elif ... else] chain. *)
Definition bucket (score : Q) : severity :=
  if Qle_bool 80 score then CRITICAL
  else if Qle_bool 60 score then HIGH
  else if Qle_bool 40 score then MEDIUM
  else LOW.

Definition calculate_jamming_severity (ty : jamming_type) (d : details) : severity :=
  bucket (severity_scores ty d).

(** [handle_potential_jamming] up to its first suspension: the guard, the
    flag and the event. The rest of the coroutine is left in [handlers]. *)
Definition handle_potential_jamming (ty : jamming_type) (d : details) (now : nat)
    (s : system) : system :=
  if jamming_detected s then s
  else
    let jamming_event := mk_event ty now d (calculate_jamming_severity ty d) in
    set_handlers (fun h => h ++ [at_countermeasures jamming_event])
      (log_event jamming_event (set_jamming_detected true s)).

(** [test_channel_connectivity] is simulated in the source: always [True]. *)
Definition test_channel_connectivity (c : channel) : bool := true.

Definition switch_to_backup_channel (s : system) : channel * system :=
  let available_channels :=
    filter (fun c => c <> current_channel s /\ test_channel_connectivity c = true)
      backup_channels in
  match available_channels with
  | c :: _ => (c, set_current_channel c s)
  | [] => (current_channel s, s)
  end.

(** [store_jamming_evidence]: [open] and [json.dump] are not guarded;
    [write_ok = false] is a failing write, which raises. *)
Definition store_jamming_evidence (write_ok : bool) (e : jamming_event)
    (s : system) : option system :=
  if write_ok then Some (log_evidence e s) else None.

(** [activate_countermeasures]; the bool is [false] when the evidence write
    raised, in which case what was done before the write stays done. *)
Definition activate_countermeasures (write_ok : bool) (e : jamming_event)
    (s : system) : bool * system :=
  let s1 :=
    match ev_type e with
    | signal_drop | network =>
        let '(c, s') := switch_to_backup_channel s in
        log_activated (switched_to c) s'
    | _ => s
    end in
  let s2 :=
    match ev_type e with
    | rf_interference => log_activated increased_power s1
    | _ => s1
    end in
  let s3 :=
    match ev_severity e with
    | HIGH | CRITICAL => log_activated frequency_hopping s2
    | _ => s2
    end in
  match store_jamming_evidence write_ok e s3 with
  | Some s4 => (true, log_activated evidence_stored s4)
  | None => (false, s3)
  end.

(** The callback loop: each callback is called once with the event; an
    exception it raises is caught and the loop goes on. An entry records
    the callback's position, the event and whether the call raised. *)
Definition dispatch (e : jamming_event) (cbs : list callback)
    : list (nat * jamming_event * bool) :=
  imap (fun i cb => (i, e, cb e)) cbs.

Definition notify_callbacks (e : jamming_event) (s : system) : system :=
  log_notified (dispatch e (alert_callbacks s)) s.

(** The next stretch of handler [k], up to its next suspension. An
    exception from [activate_countermeasures] leaves the coroutine: the
    handler is gone, the callback loop and the cooldown are skipped. *)
Definition progress (k : nat) (write_ok : bool) (s : system) : system :=
  match handlers s !! k with
  | Some (at_countermeasures e) =>
      let '(ok, s1) := activate_countermeasures write_ok e s in
      if ok then set_handlers (fun h => <[k := at_callbacks e]> h) s1
      else set_handlers (fun h => delete k h) s1
  | Some (at_callbacks e) =>
      set_handlers (fun h => <[k := at_cooldown]> h) (notify_callbacks e s)
  | Some at_cooldown => s
  | None => s
  end.

(** [asyncio.sleep(30)] returns for handler [k]: the flag is cleared and
    the coroutine ends. *)
Definition cooldown_elapsed (k : nat) (s : system) : system :=
  match handlers s !! k with
  | Some at_cooldown => set_handlers (fun h => delete k h) (set_jamming_detected false s)
  | _ => s
  end.

Inductive action :=
  | a_breach (ty : jamming_type) (d : details) (now : nat)
  | a_progress (k : nat) (write_ok : bool)
  | a_cooldown_elapsed (k : nat).

Definition step (a : action) (s : system) : system :=
  match a with
  | a_breach ty d now => handle_potential_jamming ty d now s
  | a_progress k write_ok => progress k write_ok s
  | a_cooldown_elapsed k => cooldown_elapsed k s
  end.

Definition run (tr : list action) (s : system) : system :=
  foldl (fun acc a => step a acc) s tr.

(** No [sleep(30)] returns during the trace. *)
Definition within_cooldown (tr : list action) : Prop :=
  Forall (fun a => match a with a_cooldown_elapsed _ => False | _ => True end) tr.

(** Nothing detected and no handler running, as after [__init__]. *)
Definition idle (s : system) : Prop :=
  jamming_detected s = false /\ handlers s = [].

(** The state in which the first breach of a trace left the controller:
    the flag is up, [e] is the one event added to those of [s0], and the
    one handler is somewhere between its start and its cooldown (or has
    left with an exception); the callbacks have been called once with [e]
    exactly when the handler has reached the cooldown. *)
Definition debounced (s0 : system) (e : jamming_event) (s : system) : Prop :=
  jamming_detected s = true /\
  events s = events s0 ++ [e] /\
  alert_callbacks s = alert_callbacks s0 /\
  ((handlers s = [at_countermeasures e] /\ notified s = notified s0) \/
   (handlers s = [at_callbacks e] /\ notified s = notified s0) \/
   (handlers s = [at_cooldown] /\
    notified s = notified s0 ++ dispatch e (alert_callbacks s0)) \/
   (handlers s = [] /\ notified s = notified s0)).

(** The severity buckets as the specification words them. *)
Definition in_bucket (score : Q) (sev : severity) : Prop :=
  match sev with
  | CRITICAL => 80 <= score
  | HIGH => 60 <= score /\ score < 80
  | MEDIUM => 40 <= score /\ score < 60
  | LOW => score < 40
  end.

(** *** RF interference estimate *)

(** Python truthiness of [s['wifi']]. *)
Definition truthy (w : option Q) : bool :=
  match w with
  | Some q => negb (Qeq_bool q 0)
  | None => false
  end.

(** [[s['wifi'] for s in history[-10:] if s['wifi']]]. *)
Definition recent_signals (h : list signal_sample) : list Q :=
  omap (fun smp => if truthy (wifi smp) then wifi smp else None)
    (drop (length h - 10) h).

Definition Qsum (l : list Q) : Q := foldr Qplus 0 l.

Definition mean (l : list Q) : Q := Qsum l / inject_Z (Z.of_nat (length l)).

(** [np.var]: the mean of the squared deviations from the mean. *)
Definition var (l : list Q) : Q :=
  mean (map (fun x => (x - mean l) * (x - mean l)) l).

Definition detect_rf_interference (s : system) : Q :=
  if (length (signal_strength_history s) <? 10)%nat then 0.1
  else
    match recent_signals (signal_strength_history s) with
    | [] => 0.5
    | recent => Qmin (var recent / 100) 1
    end.

(** One pass of the [monitor_interference] loop. *)
Definition monitor_interference (now : nat) (s : system) : system :=
  let level := detect_rf_interference s in
  if negb (Qle_bool level interference_threshold) then
    handle_potential_jamming rf_interference
      (mk_details None None (Some level) None) now s
  else s.

(** The module-level [anti_jamming_system], with the callbacks given. *)
Definition init (cbs : list callback) : system :=
  mk_system false false [] ch_wifi cbs [] [] [] [] [] [].

(** Example data: a controller with two subscribers, the second of which
    raises; a total network outage; histories of wifi readings. *)
Definition two_subscribers : system := init [fun _ => false; fun _ => true].

Definition outage : details := mk_details None (Some 100) None None.

Definition gps_lost : details := mk_details None None None (Some false).

Definition with_history (ws : list (option Q)) : system :=
  mk_system true false (imap (fun i w => mk_sample i w (Some 60)) ws) ch_wifi
    [] [] [] [] [] [] [].

(** More example data: a full history of steady readings, and ten
    samples in which the wifi reading falls from 80 to 45. *)
Definition full_history : system := with_history (replicate 100 (Some 45)).

Definition falling_history : system :=
  with_history (replicate 5 (Some 80) ++ replicate 5 (Some 45)).

Definition dns_down (server : string) : option Q :=
  if decide (server = "1.1.1.1"%string) then None else Some 12.

(** *** The rest of [AntiJammingSystem] *)

Definition set_history (h : list signal_sample) (s : system) : system :=
  mk_system (is_monitoring s) (jamming_detected s) h (current_channel s)
    (alert_callbacks s) (monitor_tasks s) (handlers s) (events s) (activated s)
    (evidence s) (notified s).

(** [np.mean]; [None] is the [nan] it returns for an empty list. *)
Definition np_mean (l : list Q) : option Q :=
  match l with
  | [] => None
  | _ => Some (mean l)
  end.

(** [[s['wifi'] for s in l if s['wifi']]]. *)
Definition wifi_values (l : list signal_sample) : list Q :=
  omap (fun smp => if truthy (wifi smp) then wifi smp else None) l.

(** [analyze_signal_patterns]. The two means are numpy floats: a mean of
    no values is [nan], and dividing by a zero mean gives [nan] or an
    infinity; a comparison with [nan] or with minus infinity is false, so
    nothing is reported then. The one remaining case, a zero older mean
    with a negative recent mean, reports an infinite drop, which [details]
    cannot hold: it is [None] here unless the flag is up, when
    [handle_potential_jamming] drops the report anyway. *)
Definition analyze_signal_patterns (now : nat) (s : system) : option system :=
  let h := signal_strength_history s in
  if (length h <? 5)%nat then Some s
  else
    let recent_signals := drop (length h - 5) h in
    let older_signals :=
      if (10 <=? length h)%nat then take 5 (drop (length h - 10) h) else [] in
    match older_signals with
    | [] => Some s
    | _ =>
        match np_mean (wifi_values recent_signals),
              np_mean (wifi_values older_signals) with
        | Some recent_avg, Some older_avg =>
            if Qeq_bool older_avg 0 then
              if negb (Qle_bool 0 recent_avg) && negb (jamming_detected s)
              then None else Some s
            else
              let signal_drop_percent :=
                (older_avg - recent_avg) / older_avg * 100 in
              if negb (Qle_bool signal_drop_percent signal_drop_threshold) then
                Some (handle_potential_jamming signal_drop
                        (mk_details (Some signal_drop_percent) None None None)
                        now s)
              else Some s
        | _, _ => Some s
        end
    end.

(** One pass of the [monitor_signal_strength] loop, given the two
    readings: the sample is appended, the oldest is dropped when the
    history exceeds 100 entries, and from five entries on the patterns are
    analyzed. *)
Definition monitor_signal_strength (wifi_strength cellular_strength : option Q)
    (now : nat) (s : system) : option system :=
  let signal_data := mk_sample now wifi_strength cellular_strength in
  let h1 := signal_strength_history s ++ [signal_data] in
  let h2 := if (100 <? length h1)%nat then drop 1 h1 else h1 in
  let s1 := set_history h2 s in
  if (5 <=? length h2)%nat then analyze_signal_patterns now s1 else Some s1.

Definition test_servers : list string :=
  ["8.8.8.8"; "1.1.1.1"; "208.67.222.222"]%string.

(** The [network_health] dict; a result pairs the server with its response
    time, [None] when the connection failed. *)
Record network_health := mk_network_health {
  nh_timestamp : nat;
  nh_packet_loss : Q;
  connectivity_results : list (string * option Q);
  avg_response_time : option Q
}.

(** One pass of the [monitor_network_health] loop, given what connecting
    to each server yields; it returns the new [network_health] too. *)
Definition monitor_network_health (connect : string -> option Q) (now : nat)
    (s : system) : network_health * system :=
  let connectivity_results :=
    map (fun server => (server, connect server)) test_servers in
  let connected_count :=
    length (filter (fun r => is_Some r.2) connectivity_results) in
  let packet_loss :=
    inject_Z (Z.of_nat (length test_servers - connected_count))
    / inject_Z (Z.of_nat (length test_servers)) * 100 in
  let health :=
    mk_network_health now packet_loss connectivity_results
      (np_mean (omap (fun r => if truthy r.2 then r.2 else None)
                  connectivity_results)) in
  (health,
   if negb (Qle_bool packet_loss packet_loss_threshold) then
     handle_potential_jamming network
       (mk_details None (Some packet_loss) None None) now s
   else s).

(** The keys of the [gps_status] dict that the monitor reads. *)
Record gps_status := mk_gps_status {
  gps_available : bool;
  gps_accuracy : Q
}.

(** [check_gps_health] is simulated: available, 5 m. *)
Definition check_gps_health : gps_status := mk_gps_status true 5.

(** One pass of the [monitor_gps_jamming] loop, given the health check. *)
Definition monitor_gps_jamming (status : gps_status) (now : nat) (s : system)
    : system :=
  if negb (gps_available status) || negb (Qle_bool (gps_accuracy status) 50) then
    handle_potential_jamming gps
      (mk_details None None None (Some (gps_available status))) now s
  else s.

End Jamming.

(** ** Facts about the fleet recovery controller *)

Module FleetProofs.

Import Fleet.

Section WithDistance.

Context (calculate_distance : Q -> Q -> Q -> Q -> Q).

Local Abbreviation auto_rth := (Fleet.auto_rth calculate_distance).
Local Abbreviation emergency_rth := (Fleet.emergency_rth calculate_distance).
Local Abbreviation monitor_drone := (Fleet.monitor_drone calculate_distance).
Local Abbreviation monitor_cycle := (Fleet.monitor_cycle calculate_distance).
Local Abbreviation manual_rth := (Fleet.manual_rth calculate_distance).
Local Abbreviation emergency_rth_all := (Fleet.emergency_rth_all calculate_distance).
Local Abbreviation run_op := (Fleet.run_op calculate_distance).
Local Abbreviation run := (Fleet.run calculate_distance).

(** *** Lookup lemmas for the single operations *)

Lemma auto_rth_lookup_eq now id bl s d :
  drones s !! id = Some d ->
  drones (auto_rth now id bl s) !! id = Some (auto_rth_update now d).
Proof.
  intros H. unfold auto_rth. rewrite H. simpl. apply lookup_insert_eq.
Qed.

Lemma auto_rth_lookup_ne now id id' bl s :
  id <> id' -> drones (auto_rth now id' bl s) !! id = drones s !! id.
Proof.
  intros H. unfold auto_rth. destruct (drones s !! id'); [|done].
  simpl. by apply lookup_insert_ne.
Qed.

Lemma emergency_rth_lookup_eq now id bl s d :
  drones s !! id = Some d ->
  drones (emergency_rth now id bl s) !! id = Some (emergency_rth_update now d).
Proof.
  intros H. unfold emergency_rth. rewrite H. simpl. apply lookup_insert_eq.
Qed.

Lemma emergency_rth_lookup_ne now id id' bl s :
  id <> id' -> drones (emergency_rth now id' bl s) !! id = drones s !! id.
Proof.
  intros H. unfold emergency_rth. destruct (drones s !! id'); [|done].
  simpl. by apply lookup_insert_ne.
Qed.

Lemma store_battery_lookup_eq id b s d :
  drones s !! id = Some d ->
  drones (store_battery id b s) !! id = Some (set_battery b d).
Proof. intros H. simpl. by rewrite lookup_alter_eq, H. Qed.

Lemma store_battery_lookup_ne id id' b s :
  id <> id' -> drones (store_battery id' b s) !! id = drones s !! id.
Proof. intros H. simpl. by apply lookup_alter_ne. Qed.

Lemma monitor_drone_lookup_eq now id s d :
  drones s !! id = Some d ->
  drones (monitor_drone now id s) !! id = Some (monitor_record now d).
Proof.
  intros H. unfold monitor_drone, monitor_record. rewrite H.
  destruct (status d) eqn:Hst, (battery d) as [b|] eqn:Hb; try done.
  - destruct (Qle_bool b emergency_rth_threshold) eqn:He.
    + rewrite (emergency_rth_lookup_eq _ _ _ _ _ H). simpl.
      by apply emergency_rth_lookup_eq.
    + destruct (Qle_bool b rth_threshold && negb (default false (returning_home d)))
        eqn:Ha.
      * rewrite (auto_rth_lookup_eq _ _ _ _ _ H). simpl.
        by apply auto_rth_lookup_eq.
      * rewrite H. destruct (negb (default false (returning_home d))); [|done].
        by apply store_battery_lookup_eq.
  - destruct (negb (Qle_bool 100 b)); [|done].
    by apply store_battery_lookup_eq.
Qed.

Lemma monitor_drone_lookup_ne now id id' s :
  id <> id' -> drones (monitor_drone now id' s) !! id = drones s !! id.
Proof.
  intros H. unfold monitor_drone.
  destruct (drones s !! id') as [d|] eqn:Hd; [|done].
  destruct (status d), (battery d) as [b|]; try done.
  - set (s1 := if Qle_bool b emergency_rth_threshold then _ else _).
    assert (Hs1 : drones s1 !! id = drones s !! id).
    { subst s1. destruct (Qle_bool b emergency_rth_threshold).
      - by apply emergency_rth_lookup_ne.
      - destruct (_ && _); [by apply auto_rth_lookup_ne|done]. }
    clearbody s1.
    destruct (drones s1 !! id') as [d1|]; [|done].
    destruct (negb (default false (returning_home d1))); [|done].
    by rewrite store_battery_lookup_ne.
  - destruct (negb _); [|done]. by apply store_battery_lookup_ne.
Qed.

Lemma monitor_fold_lookup now id (l : list (string * drone)) s :
  NoDup l.*1 ->
  drones (foldl (fun acc kv => monitor_drone now kv.1 acc) s l) !! id
  = if decide (id ∈ l.*1) then monitor_record now <$> drones s !! id
    else drones s !! id.
Proof.
  revert s. induction l as [|[k v] l IH]; intros s Hnd.
  - done.
  - rewrite fmap_cons in Hnd. apply NoDup_cons in Hnd as [Hk Hnd].
    rewrite fmap_cons. cbn [foldl fst]. rewrite IH by done.
    destruct (decide (id = k)) as [->|Hne].
    + case_decide as Hin; [done|]. case_decide as Hin'.
      * destruct (drones s !! k) as [d|] eqn:Hd.
        -- by rewrite (monitor_drone_lookup_eq _ _ _ _ Hd).
        -- unfold monitor_drone. by rewrite Hd, Hd.
      * exfalso. apply Hin'. apply list_elem_of_here.
    + rewrite monitor_drone_lookup_ne by done.
      case_decide as Hin; case_decide as Hin'; try done.
      * exfalso. apply Hin'. by apply list_elem_of_further.
      * exfalso. apply Hin. apply elem_of_cons in Hin' as [?|?]; done.
Qed.

(** The effect of one cycle on the store: every record is replaced by its
    [monitor_record]; no record is added or removed. *)
Lemma monitor_cycle_lookup now id s :
  drones (monitor_cycle now s) !! id = monitor_record now <$> drones s !! id.
Proof.
  unfold monitor_cycle. rewrite monitor_fold_lookup.
  - destruct (decide _) as [Hin|Hin]; [done|].
    destruct (drones s !! id) as [d|] eqn:Hd; [|done].
    exfalso. apply Hin. apply list_elem_of_fmap. exists (id, d).
    split; [done|]. by apply elem_of_map_to_list.
  - apply NoDup_fst_map_to_list.
Qed.

Lemma monitor_record_active now d :
  status (monitor_record now d) = active -> status d = active.
Proof.
  unfold monitor_record.
  destruct (status d) eqn:Hs, (battery d) as [b|]; simpl; try congruence.
  destruct (negb (Qle_bool 100 b)); simpl; congruence.
Qed.

Lemma auto_rth_spawned now id bl s d :
  drones s !! id = Some d ->
  exists info, spawned (auto_rth now id bl s) = spawned s ++ [journey_task id info].
Proof. intros H. unfold auto_rth. rewrite H. simpl. by eexists. Qed.

Lemma emergency_rth_spawned now id bl s d :
  drones s !! id = Some d ->
  exists info,
    spawned (emergency_rth now id bl s) = spawned s ++ [emergency_journey_task id info].
Proof. intros H. unfold emergency_rth. rewrite H. simpl. by eexists. Qed.

(** Handling one drone creates at most one journey task, for that drone,
    and only when its status is [active]. *)
Lemma monitor_drone_spawned now id s :
  exists l,
    spawned (monitor_drone now id s) = spawned s ++ l /\
    Forall (fun t => task_drone t = id /\
                     exists d, drones s !! id = Some d /\ status d = active) l.
Proof.
  unfold monitor_drone.
  destruct (drones s !! id) as [d|] eqn:Hd;
    [|exists []; by rewrite app_nil_r].
  destruct (status d) eqn:Hst, (battery d) as [b|];
    try (exists []; by rewrite app_nil_r).
  - set (s1 := if Qle_bool b emergency_rth_threshold then _ else _).
    assert (Hs1 : exists l, spawned s1 = spawned s ++ l /\
              Forall (fun t => task_drone t = id /\
                        exists d, Some d = Some d /\ status d = active) l).
    { subst s1. destruct (Qle_bool b emergency_rth_threshold).
      - destruct (emergency_rth_spawned now id (Some b) s d Hd) as [info ->].
        eexists; split; [done|]. repeat constructor; eauto.
      - destruct (_ && _).
        + destruct (auto_rth_spawned now id (Some b) s d Hd) as [info ->].
          eexists; split; [done|]. repeat constructor; eauto.
        + exists []. by rewrite app_nil_r. }
    clearbody s1. destruct Hs1 as (l & Hl & Hall). exists l.
    split.
    + destruct (drones s1 !! id) as [d1|]; [|done].
      by destruct (negb (default false (returning_home d1))).
    + eapply Forall_impl; [exact Hall|]. intros t (? & d' & ? & ?).
      split; [done|]. exists d. split; [done|]. done.
  - exists []. rewrite app_nil_r. split; [|constructor].
    by destruct (negb (Qle_bool 100 b)).
Qed.

(** Every journey task a cycle creates belongs to a unit that was
    [active] when the cycle began. *)
Lemma monitor_fold_spawned now (l : list (string * drone)) s :
  exists l',
    spawned (foldl (fun acc kv => monitor_drone now kv.1 acc) s l)
    = spawned s ++ l' /\
    Forall (fun t => exists d, drones s !! task_drone t = Some d /\
                               status d = active) l'.
Proof.
  revert s. induction l as [|[k v] l IH]; intros s.
  - exists []. simpl. by rewrite app_nil_r.
  - cbn [foldl fst].
    destruct (IH (monitor_drone now k s)) as (l2 & -> & H2).
    destruct (monitor_drone_spawned now k s) as (l1 & -> & H1).
    exists (l1 ++ l2). split; [by rewrite app_assoc|].
    apply Forall_app. split.
    + eapply Forall_impl; [exact H1|]. by intros t [-> ?].
    + eapply Forall_impl; [exact H2|]. intros t (d & Hd & Hs).
      destruct (decide (task_drone t = k)) as [Hk|Hk].
      * rewrite Hk in *. destruct (drones s !! k) as [d0|] eqn:Hd0.
        -- rewrite (monitor_drone_lookup_eq _ _ _ _ Hd0) in Hd.
           injection Hd as <-. exists d0. split; [done|].
           by eapply monitor_record_active.
        -- unfold monitor_drone in Hd. by rewrite Hd0, Hd0 in Hd.
      * rewrite monitor_drone_lookup_ne in Hd by done. eauto.
Qed.

(** If handling [id] in any state holding record [d] creates a task with
    property [P], the whole cycle creates one. *)
Lemma monitor_fold_spawn_elem now id (l : list (string * drone)) s d
    (P : task -> Prop) :
  NoDup l.*1 -> id ∈ l.*1 -> drones s !! id = Some d ->
  (forall s', drones s' !! id = Some d ->
     exists t, P t /\ spawned (monitor_drone now id s') = spawned s' ++ [t]) ->
  exists t pre post,
    P t /\
    spawned (foldl (fun acc kv => monitor_drone now kv.1 acc) s l)
    = spawned s ++ pre ++ t :: post.
Proof.
  intros Hnd Hin Hd HP. revert s Hd Hnd Hin.
  induction l as [|[k v] l IH]; intros s Hd Hnd Hin.
  - by apply elem_of_nil in Hin.
  - rewrite fmap_cons in Hnd, Hin. apply NoDup_cons in Hnd as [Hk Hnd].
    cbn [foldl fst]. cbn [fst] in Hin, Hk.
    destruct (decide (id = k)) as [->|Hne].
    + destruct (HP s Hd) as (t & Ht & Hsp).
      destruct (monitor_fold_spawned now l (monitor_drone now k s))
        as (l' & -> & _).
      exists t, [], l'. split; [done|]. rewrite Hsp. by rewrite <- app_assoc.
    + apply elem_of_cons in Hin as [?|Hin]; [done|].
      destruct (IH (monitor_drone now k s)) as (t & pre & post & Ht & ->);
        [by rewrite monitor_drone_lookup_ne|done|done|].
      destruct (monitor_drone_spawned now k s) as (l1 & -> & _).
      exists t, (l1 ++ pre), post. split; [done|].
      by rewrite <- !app_assoc.
Qed.

Section Stable.

Context (P : drone -> Prop) (HP : stable P).

Local Abbreviation holds := (Fleet.holds P).

Lemma auto_rth_holds now i bl id s : holds id s -> holds id (auto_rth now i bl s).
Proof.
  intros (d & Hd & Hp). destruct (decide (id = i)) as [->|Hne].
  - exists (auto_rth_update now d). split; [by apply auto_rth_lookup_eq|].
    by apply HP.
  - exists d. by rewrite auto_rth_lookup_ne.
Qed.

Lemma emergency_rth_holds now i bl id s :
  holds id s -> holds id (emergency_rth now i bl s).
Proof.
  intros (d & Hd & Hp). destruct (decide (id = i)) as [->|Hne].
  - exists (emergency_rth_update now d).
    split; [by apply emergency_rth_lookup_eq|]. by apply HP.
  - exists d. by rewrite emergency_rth_lookup_ne.
Qed.

Lemma emergency_rth_all_holds now id s :
  holds id s -> holds id (emergency_rth_all now s).
Proof.
  unfold emergency_rth_all. generalize (filter (fun kv : string * drone =>
    status kv.2 = active) (map_to_list (drones s))). intros l. revert s.
  induction l as [|kv l IH]; intros s H; [done|].
  simpl. apply IH. by apply emergency_rth_holds.
Qed.

Lemma monitor_cycle_holds now id s : holds id s -> holds id (monitor_cycle now s).
Proof.
  intros (d & Hd & Hp). exists (monitor_record now d).
  rewrite monitor_cycle_lookup, Hd. split; [done|]. by apply HP.
Qed.

Lemma journey_step_holds home step i id s :
  holds id s -> holds id (journey_step home step i s).
Proof.
  intros (d & Hd & Hp). simpl. destruct (decide (id = i)) as [->|Hne].
  - exists (journey_update home step d). unfold holds. simpl.
    rewrite lookup_alter_eq, Hd. split; [done|]. by apply HP.
  - exists d. unfold holds. simpl. by rewrite lookup_alter_ne.
Qed.

Lemma land_drone_holds now i id s : holds id s -> holds id (land_drone now i s).
Proof.
  intros (d & Hd & Hp). unfold land_drone.
  destruct (decide (id = i)) as [->|Hne].
  - rewrite Hd. exists (land_update now d). simpl.
    rewrite lookup_insert_eq. split; [done|]. by apply HP.
  - destruct (drones s !! i); [|by exists d].
    exists d. simpl. by rewrite lookup_insert_ne.
Qed.

Lemma run_op_holds o id s : holds id s -> holds id (run_op o s).
Proof.
  intros H. destruct o; simpl.
  - unfold start_monitoring. by destruct (monitoring s).
  - by apply monitor_cycle_holds.
  - unfold manual_rth. destruct (drones s !! drone_id); [|done].
    by apply auto_rth_holds.
  - by apply emergency_rth_all_holds.
  - by apply journey_step_holds.
  - by apply land_drone_holds.
Qed.

(** No operation deletes a record, and every operation keeps [P]. *)
Lemma run_holds ops id s : holds id s -> holds id (run ops s).
Proof.
  revert s. induction ops as [|o ops IH]; intros s H; [done|].
  simpl. apply IH. by apply run_op_holds.
Qed.

End Stable.

Lemma progress_nonneg (step : nat) : 0 <= inject_Z (Z.of_nat step) / 10.
Proof.
  apply Qle_shift_div_l; [reflexivity|]. rewrite Qmult_0_l.
  change 0 with (inject_Z 0). rewrite <- Zle_Qle. lia.
Qed.

Lemma battery_ok_stable : stable battery_ok.
Proof.
  split.
  - intros now d H. exact H.
  - intros now d H. exact H.
  - intros now d (b & Hb & H0 & H100). unfold monitor_record. rewrite Hb.
    destruct (status d); try (by exists b).
    + destruct (Qle_bool b emergency_rth_threshold); [by exists b|].
      destruct (_ && _); [by exists b|].
      destruct (negb _); [|by exists b].
      eexists. split; [done|]. split; [apply Q.le_max_l|].
      apply Q.max_lub; lra.
    + destruct (negb (Qle_bool 100 b)); [|by exists b].
      eexists. split; [done|]. split.
      * apply Q.min_glb; lra.
      * apply Q.le_min_l.
  - intros home step d (b & Hb & H0 & H100). unfold battery_ok, journey_update.
    simpl. rewrite Hb. eexists. split; [done|].
    pose proof (progress_nonneg step).
    split; [apply Q.le_max_l|]. apply Q.max_lub; [lra|].
    set (p := inject_Z (Z.of_nat step) / 10) in *. clearbody p. nra.
  - intros now d H. exact H.
Qed.

Lemma battery_nonneg_stable : stable battery_nonneg.
Proof.
  split.
  - intros now d H. exact H.
  - intros now d H. exact H.
  - intros now d (b & Hb & H0). unfold monitor_record. rewrite Hb.
    destruct (status d); try (by exists b).
    + destruct (Qle_bool b emergency_rth_threshold); [by exists b|].
      destruct (_ && _); [by exists b|].
      destruct (negb _); [|by exists b].
      eexists. split; [done|]. apply Q.le_max_l.
    + destruct (negb (Qle_bool 100 b)); [|by exists b].
      eexists. split; [done|]. apply Q.min_glb; lra.
  - intros home step d (b & Hb & H0). unfold battery_nonneg, journey_update.
    simpl. rewrite Hb. eexists. split; [done|]. apply Q.le_max_l.
  - intros now d H. exact H.
Qed.

Lemma consistent_stable : stable consistent.
Proof.
  split; unfold consistent.
  - done.
  - done.
  - intros now d H. unfold monitor_record.
    destruct (status d) eqn:Hs, (battery d) as [b|]; try exact H;
      repeat (match goal with |- context [if ?c then _ else _] => destruct c end);
      simpl; try done; rewrite ?Hs; exact H.
  - intros home step d H. exact H.
  - done.
Qed.

(** *** Battery thresholds and RTH triggers *)

Lemma Qle_bool_false x y : y < x -> Qle_bool x y = false.
Proof.
  intros H. destruct (Qle_bool x y) eqn:E; [|done].
  apply Qle_bool_iff in E. lra.
Qed.

Lemma Qle_bool_true x y : x <= y -> Qle_bool x y = true.
Proof. apply Qle_bool_iff. Qed.

Lemma monitor_record_emergency now d b :
  status d = active -> battery d = Some b -> b <= 10 ->
  monitor_record now d = emergency_rth_update now d.
Proof.
  intros Hs Hb Hle. unfold monitor_record. rewrite Hs, Hb.
  unfold emergency_rth_threshold. by rewrite Qle_bool_true.
Qed.

Lemma monitor_record_auto now d b :
  status d = active -> battery d = Some b -> 10 < b -> b <= 20 ->
  default false (returning_home d) = false ->
  monitor_record now d = auto_rth_update now d.
Proof.
  intros Hs Hb Hlt Hle Hr. unfold monitor_record. rewrite Hs, Hb.
  unfold emergency_rth_threshold, rth_threshold.
  rewrite Qle_bool_false by done. by rewrite Qle_bool_true, Hr.
Qed.

Lemma monitor_drone_emergency_spawn now id d b s :
  status d = active -> battery d = Some b -> b <= 10 ->
  drones s !! id = Some d ->
  exists t, (exists info, t = emergency_journey_task id info) /\
            spawned (monitor_drone now id s) = spawned s ++ [t].
Proof.
  intros Hs Hb Hle Hd. unfold Fleet.monitor_drone. rewrite Hd, Hs, Hb.
  unfold emergency_rth_threshold. rewrite Qle_bool_true by done.
  rewrite (emergency_rth_lookup_eq _ _ _ _ _ Hd). simpl.
  destruct (emergency_rth_spawned now id (Some b) s d Hd) as [info ->].
  eauto.
Qed.

Lemma monitor_drone_auto_spawn now id d b s :
  status d = active -> battery d = Some b -> 10 < b -> b <= 20 ->
  default false (returning_home d) = false ->
  drones s !! id = Some d ->
  exists t, (exists info, t = journey_task id info) /\
            spawned (monitor_drone now id s) = spawned s ++ [t].
Proof.
  intros Hs Hb Hlt Hle Hr Hd. unfold Fleet.monitor_drone. rewrite Hd, Hs, Hb.
  unfold emergency_rth_threshold, rth_threshold.
  rewrite Qle_bool_false by done. rewrite Qle_bool_true, Hr by done. simpl.
  rewrite (auto_rth_lookup_eq _ _ _ _ _ Hd). simpl.
  destruct (auto_rth_spawned now id (Some b) s d Hd) as [info ->].
  eauto.
Qed.

Lemma monitor_cycle_spawn_elem now id s d (P : task -> Prop) :
  drones s !! id = Some d ->
  (forall s', drones s' !! id = Some d ->
     exists t, P t /\ spawned (monitor_drone now id s') = spawned s' ++ [t]) ->
  exists t pre post,
    P t /\ spawned (monitor_cycle now s) = spawned s ++ pre ++ t :: post.
Proof.
  intros Hd HP. unfold Fleet.monitor_cycle.
  eapply monitor_fold_spawn_elem; [apply NoDup_fst_map_to_list| |exact Hd|exact HP].
  apply list_elem_of_fmap. exists (id, d). split; [done|].
  by apply elem_of_map_to_list.
Qed.

(** C1. One battery-monitor cycle on an active unit: with battery at most
    10 it runs Emergency RTH (status returning, returning_home and
    emergency_mode set, reason critical_battery, an emergency journey task
    created); with battery above 10 and at most 20 and returning_home not
    set it runs Auto RTH (status returning, returning_home set, reason
    low_battery, a journey task created). Auto RTH leaves emergency_mode as
    it was, which is false: only Emergency RTH sets it, together with
    status returning ([consistent]). *)
Theorem monitor_cycle_triggers_rth now s id d b :
  drones s !! id = Some d -> status d = active -> battery d = Some b ->
  (b <= 10 ->
   exists d',
     drones (monitor_cycle now s) !! id = Some d' /\
     status d' = returning /\ returning_home d' = Some true /\
     emergency_mode d' = Some true /\ rth_reason d' = Some critical_battery /\
     exists info pre post,
       spawned (monitor_cycle now s)
       = spawned s ++ pre ++ emergency_journey_task id info :: post) /\
  (10 < b -> b <= 20 -> default false (returning_home d) = false ->
   exists d',
     drones (monitor_cycle now s) !! id = Some d' /\
     status d' = returning /\ returning_home d' = Some true /\
     rth_reason d' = Some low_battery /\
     emergency_mode d' = emergency_mode d /\
     (consistent d -> default false (emergency_mode d') = false) /\
     exists info pre post,
       spawned (monitor_cycle now s)
       = spawned s ++ pre ++ journey_task id info :: post).
Proof.
  intros Hd Hs Hb. split.
  - intros Hle. exists (emergency_rth_update now d).
    rewrite monitor_cycle_lookup, Hd. simpl.
    rewrite (monitor_record_emergency now d b) by done.
    repeat (split; [done|]).
    destruct (monitor_cycle_spawn_elem now id s d
                (fun t => exists info, t = emergency_journey_task id info) Hd)
      as (t & pre & post & [info ->] & Hsp).
    { intros s' Hd'. by eapply monitor_drone_emergency_spawn. }
    by exists info, pre, post.
  - intros Hlt Hle Hr. exists (auto_rth_update now d).
    rewrite monitor_cycle_lookup, Hd. simpl.
    rewrite (monitor_record_auto now d b) by done.
    repeat (split; [done|]). split.
    { intros Hc. unfold consistent in Hc. rewrite Hs in Hc. simpl.
      destruct (emergency_mode d) as [[]|]; try done. by specialize (Hc eq_refl). }
    destruct (monitor_cycle_spawn_elem now id s d
                (fun t => exists info, t = journey_task id info) Hd)
      as (t & pre & post & [info ->] & Hsp).
    { intros s' Hd'. by eapply monitor_drone_auto_spawn. }
    by exists info, pre, post.
Qed.

(** A record that is [consistent] is still [consistent] after any sequence
    of operations, and the records of the configured fleet are: an active
    unit never has [emergency_mode] set. *)
Lemma run_consistent ops id s :
  holds consistent id s -> holds consistent id (run ops s).
Proof. apply run_holds, consistent_stable. Qed.

Lemma sample_drones_consistent :
  map_Forall (fun _ d => consistent d) (drones drone_fleet).
Proof.
  simpl. unfold sample_drones.
  repeat (apply map_Forall_insert_2; [discriminate|]).
  apply map_Forall_empty.
Qed.

(** *** Re-entry *)

(** A unit that is [returning] is left as it is by a monitor cycle. *)
Lemma monitor_record_returning now d :
  status d = returning -> monitor_record now d = d.
Proof. intros H. unfold monitor_record. by rewrite H. Qed.

Lemma monitor_cycles_returning (nows : list nat) id s d :
  drones s !! id = Some d -> status d = returning ->
  drones (run (map op_monitor_cycle nows) s) !! id = Some d.
Proof.
  revert s. induction nows as [|now nows IH]; intros s Hd Hs; [done|].
  simpl. apply IH; [|done].
  rewrite monitor_cycle_lookup, Hd. simpl.
  by rewrite (monitor_record_returning _ _ Hs).
Qed.

(** A monitor cycle creates no journey task for a unit that is not
    [active] when it starts. *)
Lemma monitor_cycle_no_relaunch now id s d :
  drones s !! id = Some d -> status d <> active ->
  exists l, spawned (monitor_cycle now s) = spawned s ++ l /\
            Forall (fun t => task_drone t <> id) l.
Proof.
  intros Hd Hs. unfold Fleet.monitor_cycle.
  destruct (monitor_fold_spawned now (map_to_list (drones s)) s) as (l & Hl & Hall).
  exists l. split; [done|]. eapply Forall_impl; [exact Hall|].
  intros t (d' & Hd' & Hs') Heq. rewrite Heq, Hd in Hd'. congruence.
Qed.

(** C4. A battery-monitor cycle leaves a returning unit alone, but the
    manual RTH command does not: [manual_rth] calls [auto_rth] without the
    [returning_home] guard that the monitor applies. Here unit GUARD-05
    (battery 8) is sent home by one monitor cycle with reason
    critical_battery; a manual RTH for it then reports success, overwrites
    the reason with low_battery and creates a second journey task. *)
Theorem manual_rth_retriggers :
  let s1 := monitor_cycle 0 test_fleet in
  let r := manual_rth 1 "GUARD-05" s1 in
  status <$> drones s1 !! "GUARD-05" = Some returning /\
  returning_home <$> drones s1 !! "GUARD-05" = Some (Some true) /\
  rth_reason <$> drones s1 !! "GUARD-05" = Some (Some critical_battery) /\
  r.1 = true /\
  rth_reason <$> drones r.2 !! "GUARD-05" = Some (Some low_battery) /\
  exists info, spawned r.2 = spawned s1 ++ [journey_task "GUARD-05" info].
Proof.
  intros s1 r.
  assert (H1 : drones s1 !! "GUARD-05"
               = Some (emergency_rth_update 0 critical_drone)).
  { subst s1. rewrite monitor_cycle_lookup. vm_compute. reflexivity. }
  subst r. unfold Fleet.manual_rth. rewrite H1. cbn [fst snd fmap option_fmap option_map].
  split; [reflexivity|]. split; [reflexivity|]. split; [reflexivity|].
  split; [reflexivity|]. split.
  - by rewrite (auto_rth_lookup_eq _ _ _ _ _ H1).
  - by eapply auto_rth_spawned.
Qed.

(** *** Landing *)

Lemma land_drone_lookup_eq now id s d :
  drones s !! id = Some d ->
  drones (land_drone now id s) !! id = Some (land_update now d).
Proof. intros H. unfold land_drone. rewrite H. simpl. apply lookup_insert_eq. Qed.

Lemma journey_steps_run home id (steps : list nat) s :
  foldl (fun acc step => journey_step home step id acc) s steps
  = run (map (fun step => op_journey_step home step id) steps) s.
Proof.
  revert s. induction steps as [|k steps IH]; intros s; [done|]. simpl. apply IH.
Qed.

Lemma true_stable : stable (fun _ => True).
Proof. by split. Qed.

(** Once a journey step has run, a numeric battery is not negative,
    whatever runs before the unit lands; the landing finds the record. *)
Lemma journey_then_land home step ops now id s d :
  drones s !! id = Some d ->
  exists d',
    drones (land_drone now id (run ops (journey_step home step id s))) !! id
    = Some d' /\
    landed_at_home now d' /\ (is_Some (battery d) -> battery_nonneg d').
Proof.
  intros Hd.
  assert (Hj : drones (journey_step home step id s) !! id
               = Some (journey_update home step d)).
  { simpl. by rewrite lookup_alter_eq, Hd. }
  destruct (battery d) as [b|] eqn:Hb.
  - assert (H1 : holds battery_nonneg id (journey_step home step id s)).
    { eexists. split; [exact Hj|]. unfold battery_nonneg, journey_update.
      simpl. rewrite Hb. eexists. split; [done|]. apply Q.le_max_l. }
    destruct (run_holds _ battery_nonneg_stable ops id _ H1) as (d1 & Hd1 & Hn).
    exists (land_update now d1). split; [by apply land_drone_lookup_eq|].
    split; [by repeat split|]. intros _. exact Hn.
  - assert (H1 : holds (fun _ => True) id (journey_step home step id s))
      by (eexists; split; [exact Hj|done]).
    destruct (run_holds _ true_stable ops id _ H1) as (d1 & Hd1 & _).
    exists (land_update now d1). split; [by apply land_drone_lookup_eq|].
    split; [by repeat split|]. by intros [? ?].
Qed.

(** C7. Landing writes status landed, returning_home false, emergency_mode
    false, the home-base position with altitude 0 and the landing time,
    keeps the battery and keeps the record; a return journey (plain or
    emergency) run to its end leaves the record in that state, with a
    numeric battery not negative. *)
Theorem journey_completion_lands now id s d :
  drones s !! id = Some d ->
  (exists d',
     drones (land_drone now id s) !! id = Some d' /\
     landed_at_home now d' /\ battery d' = battery d) /\
  (forall info,
     exists d',
       drones (simulate_return_journey now id info s) !! id = Some d' /\
       (forall write_ok,
          drones (simulate_emergency_return_journey write_ok now id info s) !! id
          = Some d') /\
       landed_at_home now d' /\ (is_Some (battery d) -> battery_nonneg d')).
Proof.
  intros Hd. split.
  - exists (land_update now d). split; [by apply land_drone_lookup_eq|].
    split; [by repeat split|done].
  - intros info.
    unfold simulate_emergency_return_journey, emergency_landing_procedures.
    unfold simulate_return_journey. rewrite Hd.
    change (seq 0 11) with (0%nat :: seq 1 10). cbn [foldl].
    rewrite journey_steps_run.
    destruct (journey_then_land (home_base info) 0
                (map (fun step => op_journey_step (home_base info) step id)
                   (seq 1 10)) now id s d Hd) as (d' & Hd' & Hl & Hn).
    by exists d'.
Qed.

(** C8. A battery in [0, 100] stays in [0, 100]: under the drain and the
    charge of a monitor cycle, under a step of the return journey, and
    after any sequence of controller operations. *)
Theorem battery_stays_in_range ops id s d :
  drones s !! id = Some d -> battery_ok d ->
  (forall now, battery_ok (monitor_record now d)) /\
  (forall home step, battery_ok (journey_update home step d)) /\
  exists d', drones (run ops s) !! id = Some d' /\ battery_ok d'.
Proof.
  intros Hd Hok. split; [|split].
  - intros now. by apply battery_ok_stable.
  - intros home step. by apply battery_ok_stable.
  - apply (run_holds _ battery_ok_stable). by exists d.
Qed.

(** C9. [manual_rth] on an id that is not in the store returns [False] and
    changes nothing; on an id that is in the store it returns [True]. *)
Theorem manual_rth_unknown_unit now id s :
  (drones s !! id = None -> manual_rth now id s = (false, s)) /\
  (is_Some (drones s !! id) -> (manual_rth now id s).1 = true).
Proof.
  unfold Fleet.manual_rth. split.
  - by intros ->.
  - by intros [d ->].
Qed.

End WithDistance.

(** *** The theorems at concrete fleets *)

Lemma monitor_cycle_triggers_rth_witness :
  (exists d',
     drones (monitor_cycle flat_distance 0 test_fleet) !! "GUARD-05" = Some d' /\
     status d' = returning /\ emergency_mode d' = Some true /\
     rth_reason d' = Some critical_battery) /\
  (exists d',
     drones (monitor_cycle flat_distance 0 test_fleet) !! "GUARD-03" = Some d' /\
     status d' = returning /\ default false (emergency_mode d') = false /\
     rth_reason d' = Some low_battery).
Proof.
  split.
  - destruct (monitor_cycle_triggers_rth flat_distance 0 test_fleet "GUARD-05"
                critical_drone 8) as [H _];
      [reflexivity|reflexivity|reflexivity|].
    destruct H as (d' & Hd' & Hs & _ & He & Hr & _); [lra|].
    exists d'. repeat split; assumption.
  - destruct (monitor_cycle_triggers_rth flat_distance 0 test_fleet "GUARD-03"
                (config_drone 28.7000 77.1000 140.0 15) 15) as [_ H];
      [reflexivity|reflexivity|reflexivity|].
    destruct H as (d' & Hd' & Hs & _ & Hr & _ & He & _); [lra|lra|reflexivity|].
    exists d'. repeat split; try assumption. apply He. discriminate.
Defined.

Lemma journey_completion_lands_witness :
  exists d',
    drones (simulate_return_journey 7 "GUARD-03"
              (calculate_return_path flat_distance "GUARD-03" drone_fleet)
              drone_fleet) !! "GUARD-03" = Some d' /\
    landed_at_home 7 d' /\ battery_nonneg d'.
Proof.
  destruct (journey_completion_lands flat_distance 7 "GUARD-03" drone_fleet
              (config_drone 28.7000 77.1000 140.0 15)) as [_ H];
    [reflexivity|].
  destruct (H (calculate_return_path flat_distance "GUARD-03" drone_fleet))
    as (d' & Hd' & _ & Hl & Hn).
  exists d'. split; [exact Hd'|]. split; [exact Hl|]. apply Hn. by eexists.
Defined.

Lemma battery_stays_in_range_witness :
  exists d',
    drones (run flat_distance
              [op_monitor_cycle 0; op_manual_rth 1 "GUARD-01";
               op_journey_step (home_lat, home_lon) 0 "GUARD-01";
               op_land 2 "GUARD-01"; op_monitor_cycle 3]
              drone_fleet) !! "GUARD-01" = Some d' /\
    battery_ok d'.
Proof.
  refine (proj2 (proj2 (battery_stays_in_range flat_distance _ "GUARD-01" drone_fleet
            (config_drone 28.7041 77.1025 120.4 78) _ _))).
  - reflexivity.
  - exists 78. split; [reflexivity|]. split; lra.
Defined.

Lemma manual_rth_unknown_unit_witness :
  manual_rth flat_distance 0 "GUARD-09" drone_fleet = (false, drone_fleet) /\
  (manual_rth flat_distance 0 "GUARD-02" drone_fleet).1 = true.
Proof.
  split.
  - apply (manual_rth_unknown_unit flat_distance 0 "GUARD-09" drone_fleet).
    reflexivity.
  - apply (manual_rth_unknown_unit flat_distance 0 "GUARD-02" drone_fleet).
    eexists. reflexivity.
Defined.

End FleetProofs.

(** ** Facts about the signal-integrity controller *)

Module JammingProofs.

Import Jamming.

(** *** Severity *)

Lemma bucket_in_bucket score : in_bucket score (bucket score).
Proof.
  unfold bucket.
  destruct (Qle_bool 80 score) eqn:H80; [by apply Qle_bool_iff|].
  destruct (Qle_bool 60 score) eqn:H60.
  { apply Qle_bool_iff in H60. split; [done|].
    apply Qnot_le_lt. intros H. apply Qle_bool_iff in H. congruence. }
  destruct (Qle_bool 40 score) eqn:H40.
  { apply Qle_bool_iff in H40. split; [done|].
    apply Qnot_le_lt. intros H. apply Qle_bool_iff in H. congruence. }
  apply Qnot_le_lt. intros H. apply Qle_bool_iff in H. congruence.
Qed.

(** C3. The severity of an event is the bucket (thresholds 80 / 60 / 40) of
    its score: drop_percent / 10 for signal_drop, packet_loss / 5 for
    network, interference_level * 100 for rf_interference, and for gps 80
    when unavailable (CRITICAL) and 20 otherwise (LOW); a score lies in
    exactly one bucket, and the six boundary scores fall as listed. *)
Theorem severity_scoring d :
  in_bucket (default 0 (drop_percent d) / 10)
    (calculate_jamming_severity signal_drop d) /\
  in_bucket (default 0 (packet_loss d) / 5)
    (calculate_jamming_severity network d) /\
  in_bucket (default 0 (interference_level d) * 100)
    (calculate_jamming_severity rf_interference d) /\
  in_bucket (if negb (default true (available d)) then 80 else 20)
    (calculate_jamming_severity gps d) /\
  calculate_jamming_severity gps d
  = (if negb (default true (available d)) then CRITICAL else LOW) /\
  (forall score sev, in_bucket score sev -> bucket score = sev) /\
  bucket 80 = CRITICAL /\ bucket 79.999 = HIGH /\ bucket 60 = HIGH /\
  bucket 59.999 = MEDIUM /\ bucket 40 = MEDIUM /\ bucket 39.999 = LOW.
Proof.
  split; [apply bucket_in_bucket|]. split; [apply bucket_in_bucket|].
  split; [apply bucket_in_bucket|].
  split; [exact (bucket_in_bucket (severity_scores gps d))|].
  split.
  { unfold calculate_jamming_severity, severity_scores.
    by destruct (negb (default true (available d))). }
  split.
  { intros score sev H. pose proof (bucket_in_bucket score) as Hb.
    destruct sev, (bucket score); simpl in *; try reflexivity; lra. }
  repeat split.
Qed.

(** *** Debounce *)

Lemma activate_countermeasures_frame write_ok e s :
  let s1 := (activate_countermeasures write_ok e s).2 in
  jamming_detected s1 = jamming_detected s /\ events s1 = events s /\
  alert_callbacks s1 = alert_callbacks s /\ handlers s1 = handlers s /\
  notified s1 = notified s.
Proof.
  unfold activate_countermeasures, store_jamming_evidence,
    switch_to_backup_channel.
  destruct (ev_type e), (ev_severity e), write_ok; simpl;
    repeat case_match; simplify_eq; simpl; done.
Qed.

Lemma activate_countermeasures_ok write_ok e s :
  (activate_countermeasures write_ok e s).1 = write_ok.
Proof.
  unfold activate_countermeasures, store_jamming_evidence.
  by destruct write_ok.
Qed.

(** A breach that finds the flag up changes nothing. *)
Lemma breach_dropped ty d now s :
  jamming_detected s = true -> handle_potential_jamming ty d now s = s.
Proof. intros H. unfold handle_potential_jamming. by rewrite H. Qed.

Lemma breach_debounced ty d now s :
  idle s ->
  debounced s (mk_event ty now d (calculate_jamming_severity ty d))
    (handle_potential_jamming ty d now s).
Proof.
  intros [Hf Hh]. unfold handle_potential_jamming. rewrite Hf.
  unfold debounced. simpl. rewrite Hh. simpl. auto 10.
Qed.

Lemma progress_at_countermeasures write_ok e s :
  handlers s = [at_countermeasures e] ->
  let s' := progress 0 write_ok s in
  jamming_detected s' = jamming_detected s /\ events s' = events s /\
  alert_callbacks s' = alert_callbacks s /\ notified s' = notified s /\
  handlers s' = (if write_ok then [at_callbacks e] else []).
Proof.
  intros Hh. unfold progress. rewrite Hh.
  change ([at_countermeasures e] !! 0%nat) with (Some (at_countermeasures e)).
  cbv beta iota.
  pose proof (activate_countermeasures_frame write_ok e s) as (F1 & F2 & F3 & F4 & F5).
  pose proof (activate_countermeasures_ok write_ok e s) as Hok.
  destruct (activate_countermeasures write_ok e s) as [ok s1].
  cbn [fst snd] in *. subst ok.
  destruct write_ok; cbn -[activate_countermeasures];
    rewrite F4, Hh; auto.
Qed.

Lemma progress_debounced k write_ok s0 e s :
  debounced s0 e s -> debounced s0 e (progress k write_ok s).
Proof.
  intros (Hf & He & Hc & Hh).
  destruct Hh as [[Hh Hn]|[[Hh Hn]|[[Hh Hn]|[Hh Hn]]]].
  - destruct k as [|k].
    + destruct (progress_at_countermeasures write_ok e s Hh)
        as (F1 & F2 & F3 & F4 & F5).
      unfold debounced. rewrite F1, F2, F3, F4, F5.
      destruct write_ok; auto 10.
    + unfold progress. rewrite Hh. simpl. unfold debounced. auto 10.
  - unfold progress. rewrite Hh.
    destruct k as [|k]; simpl; [|by unfold debounced; auto 10].
    unfold debounced. simpl. rewrite Hh, Hn, Hc. simpl. auto 10.
  - unfold progress. rewrite Hh.
    destruct k as [|k]; simpl; by unfold debounced; auto 10.
  - unfold progress. rewrite Hh. simpl. by unfold debounced; auto 10.
Qed.

Lemma run_debounced tr s0 e s :
  within_cooldown tr -> debounced s0 e s -> debounced s0 e (run tr s).
Proof.
  intros Htr. revert s. induction Htr as [|a tr Ha Htr IH]; intros s H; [done|].
  simpl. apply IH. destruct a; simpl.
  - rewrite breach_dropped; [done|]. by destruct H.
  - by apply progress_debounced.
  - done.
Qed.

(** C2. A breach that arrives while the flag is up is dropped: the state
    is unchanged, so no event is created, no countermeasure runs and no
    callback is called. Hence, from an idle controller, a breach followed
    by any breaches and handler progress before the cooldown ends yields
    exactly one event, and once the handler is in its cooldown the
    callbacks have been called exactly once; when the cooldown has
    cleared the flag, the next breach yields a second event. With a
    successful evidence write the handler does reach the cooldown. *)
Theorem jamming_debounce :
  (forall ty d now s,
     jamming_detected s = true -> handle_potential_jamming ty d now s = s) /\
  (forall s ty d now tr,
     idle s -> within_cooldown tr ->
     let e := mk_event ty now d (calculate_jamming_severity ty d) in
     let s' := run (a_breach ty d now :: tr) s in
     events s' = events s ++ [e] /\
     (handlers s' = [at_cooldown] ->
      notified s' = notified s ++ dispatch e (alert_callbacks s) /\
      forall ty3 d3 now3,
        events (run [a_cooldown_elapsed 0; a_breach ty3 d3 now3] s')
        = events s ++
            [e; mk_event ty3 now3 d3 (calculate_jamming_severity ty3 d3)])) /\
  (forall s ty d now ty2 d2 now2,
     idle s ->
     handlers (run [a_breach ty d now; a_progress 0 true;
                    a_breach ty2 d2 now2; a_progress 0 true] s)
     = [at_cooldown]).
Proof.
  split; [exact breach_dropped|]. split.
  - intros s ty d now tr Hidle Htr e s'.
    assert (H : debounced s e s').
    { subst s'. simpl. apply run_debounced; [done|]. by apply breach_debounced. }
    destruct H as (Hf & He & Hc & Hh). split; [done|].
    intros Hcool.
    destruct Hh as [[Hh Hn]|[[Hh Hn]|[[Hh Hn]|[Hh Hn]]]];
      rewrite Hh in Hcool; try discriminate.
    split; [done|]. intros ty3 d3 now3. simpl.
    unfold cooldown_elapsed. rewrite Hh. simpl.
    unfold handle_potential_jamming. simpl. rewrite He.
    by rewrite <- app_assoc.
  - intros s ty d now ty2 d2 now2 Hidle.
    pose proof (breach_debounced ty d now s Hidle) as H.
    set (e := mk_event ty now d (calculate_jamming_severity ty d)) in *.
    simpl. set (s1 := handle_potential_jamming ty d now s) in *.
    assert (Hh1 : handlers s1 = [at_countermeasures e]).
    { subst s1. destruct Hidle as [Hf Hh]. unfold handle_potential_jamming.
      rewrite Hf. simpl. by rewrite Hh. }
    set (s2 := progress 0 true s1).
    assert (H2 : jamming_detected s2 = true /\ handlers s2 = [at_callbacks e]).
    { subst s2.
      destruct (progress_at_countermeasures true e s1 Hh1) as (F1 & _ & _ & _ & F5).
      rewrite F1, F5. split; [|done]. by destruct H. }
    destruct H2 as [Hf2 Hh2]. rewrite (breach_dropped ty2 d2 now2 s2 Hf2).
    unfold progress. rewrite Hh2. simpl. by rewrite Hh2.
Qed.

Lemma jamming_debounce_witness :
  let e := mk_event network 1 outage LOW in
  let e3 := mk_event gps 40 gps_lost CRITICAL in
  let tr := [a_progress 0 true; a_breach gps gps_lost 2; a_progress 0 true;
             a_breach rf_interference outage 3] in
  let s' := run (a_breach network outage 1 :: tr) two_subscribers in
  events s' = [e] /\ notified s' = [(0%nat, e, false); (1%nat, e, true)] /\
  events (run [a_cooldown_elapsed 0; a_breach gps gps_lost 40] s') = [e; e3].
Proof.
  intros e e3 tr s'.
  destruct jamming_debounce as (_ & H & _).
  destruct (H two_subscribers network outage 1%nat tr) as [He Hc].
  - split; reflexivity.
  - repeat constructor.
  - destruct Hc as [Hn H3]; [reflexivity|].
    split; [exact He|]. split; [exact Hn|]. exact (H3 gps gps_lost 40%nat).
Defined.

(** With the flag up and no handler left, no action changes anything. *)
Lemma stuck_forever tr s :
  jamming_detected s = true -> handlers s = [] -> run tr s = s.
Proof.
  intros Hf Hh. induction tr as [|a tr IH]; [done|]. simpl.
  assert (Ha : step a s = s).
  { destruct a; simpl.
    - by apply breach_dropped.
    - unfold progress. by rewrite Hh.
    - unfold cooldown_elapsed. by rewrite Hh. }
  by rewrite Ha.
Qed.

(** C5. [store_jamming_evidence] does not guard its write, so a failing
    write raises through [activate_countermeasures] and out of
    [handle_potential_jamming]: the event exists and the flag is up, but
    the callbacks are not called, the cooldown is not slept and the flag
    is never cleared; every later breach is dropped. *)
Theorem evidence_write_failure_sticks cbs ty d now :
  let s1 := run [a_breach ty d now; a_progress 0 false] (init cbs) in
  events s1 = [mk_event ty now d (calculate_jamming_severity ty d)] /\
  jamming_detected s1 = true /\ handlers s1 = [] /\ notified s1 = [] /\
  forall tr, run tr s1 = s1.
Proof.
  intros s1.
  assert (Hh : handlers (handle_potential_jamming ty d now (init cbs))
               = [at_countermeasures
                    (mk_event ty now d (calculate_jamming_severity ty d))])
    by reflexivity.
  destruct (progress_at_countermeasures false _ _ Hh) as (F1 & F2 & F3 & F4 & F5).
  subst s1. cbn [run foldl step].
  rewrite F1, F2, F4, F5. repeat split.
  intros tr. apply stuck_forever; [by rewrite F1|by rewrite F5].
Qed.

(** *** Start of monitoring *)

(** C6. The fleet controller guards [start_monitoring] with its flag, so
    a second call changes nothing; the signal-integrity controller has no
    such guard, and a second call creates four more monitor tasks. *)
Theorem start_monitoring_twice :
  (forall s : Fleet.fleet,
     Fleet.start_monitoring (Fleet.start_monitoring s) = Fleet.start_monitoring s) /\
  (forall s : system,
     is_monitoring (start_monitoring s) = true /\
     monitor_tasks (start_monitoring (start_monitoring s))
     = monitor_tasks (start_monitoring s) ++
         [signal_monitor; network_monitor; interference_monitor; gps_monitor] /\
     start_monitoring (start_monitoring s) <> start_monitoring s).
Proof.
  split.
  - intros s. unfold Fleet.start_monitoring.
    by destruct (Fleet.monitoring s) eqn:H; simpl; rewrite ?H.
  - intros s. split; [done|]. split; [done|].
    intros H. apply (f_equal (fun x => length (monitor_tasks x))) in H.
    simpl in H. rewrite !length_app in H. simpl in H. lia.
Qed.

(** *** RF interference *)

Lemma Qsum_map_nonneg {A} (f : A -> Q) (l : list A) :
  (forall x, 0 <= f x) -> 0 <= Qsum (map f l).
Proof.
  intros Hf. induction l as [|x l IH].
  - apply Qle_refl.
  - change (0 <= f x + Qsum (map f l)). specialize (Hf x). lra.
Qed.

Lemma var_nonneg l : 0 <= var l.
Proof.
  unfold var, mean at 1. apply Qmult_le_0_compat.
  - apply Qsum_map_nonneg. intros x. generalize (x - mean l). intros y.
    destruct (Qlt_le_dec y 0) as [Hy|Hy].
    + assert (E : y * y == (- y) * (- y)) by ring.
      rewrite E. apply Qmult_le_0_compat; lra.
    + by apply Qmult_le_0_compat.
  - apply Qinv_le_0_compat. change 0 with (inject_Z 0).
    rewrite <- Zle_Qle. lia.
Qed.

Lemma var_singleton x : var [x] == 0.
Proof. unfold var, mean, Qsum. simpl. field. Qed.

Lemma var_pair x y : var [x; y] == (x - y) * (x - y) / 4.
Proof. unfold var, mean, Qsum. simpl. field. Qed.

Lemma recent_signals_elem (h : list signal_sample) q :
  q ∈ recent_signals h
  <-> exists smp, smp ∈ drop (length h - 10) h /\ wifi smp = Some q /\ ~ q == 0.
Proof.
  unfold recent_signals. rewrite list_elem_of_omap. split.
  - intros (smp & Hin & Hf). exists smp. split; [done|].
    destruct (wifi smp) as [q'|]; [|done]. simpl in Hf.
    destruct (Qeq_bool q' 0) eqn:E; [done|]. simpl in Hf. injection Hf as <-.
    split; [done|]. by apply Qeq_bool_neq.
  - intros (smp & Hin & Hw & Hq). exists smp. split; [done|]. rewrite Hw. simpl.
    destruct (Qeq_bool q 0) eqn:E; [|done]. by apply Qeq_bool_eq in E.
Qed.

(** C10. [detect_rf_interference] returns a value in [0, 1]:
    0.1 while fewer than ten samples are held, 0.5 when the last ten hold
    no non-zero wifi reading, and otherwise min(variance / 100, 1) of the
    non-zero wifi readings among the last ten, the variance being the mean
    squared deviation (0 for one reading, ((x - y) / 2)^2 for two). Hence
    a level above the threshold 0.8, and with it an rf_interference
    breach, needs ten samples held and at least two wifi readings among
    the last ten; before that a cycle of the interference monitor changes
    nothing. Ten samples that all carry a wifi reading are not needed. *)
Theorem rf_interference_estimate s :
  let h := signal_strength_history s in
  0 <= detect_rf_interference s /\ detect_rf_interference s <= 1 /\
  ((length h < 10)%nat -> detect_rf_interference s = 0.1) /\
  ((10 <= length h)%nat -> recent_signals h = [] ->
   detect_rf_interference s = 0.5) /\
  ((10 <= length h)%nat -> recent_signals h <> [] ->
   detect_rf_interference s = Qmin (var (recent_signals h) / 100) 1) /\
  (forall q,
     q ∈ recent_signals h
     <-> exists smp,
           smp ∈ drop (length h - 10) h /\ wifi smp = Some q /\ ~ q == 0) /\
  (forall x, var [x] == 0) /\
  (forall x y, var [x; y] == (x - y) * (x - y) / 4) /\
  (interference_threshold < detect_rf_interference s ->
   (10 <= length h)%nat /\ (2 <= length (recent_signals h))%nat) /\
  ((length h < 10)%nat \/ (length (recent_signals h) < 2)%nat ->
   forall now, monitor_interference now s = s).
Proof.
  intros h.
  assert (Hfall : (length h < 10)%nat \/ (length (recent_signals h) < 2)%nat ->
                  detect_rf_interference s <= interference_threshold).
  { unfold detect_rf_interference, interference_threshold. fold h.
    intros [Hlen|Hrec].
    - apply Nat.ltb_lt in Hlen. rewrite Hlen. by vm_compute.
    - destruct (length h <? 10)%nat; [by vm_compute|].
      destruct (recent_signals h) as [|x [|y l]];
        [by vm_compute| |simpl in Hrec; lia].
      pose proof (Q.le_min_l (var [x] / 100) 1) as Hmin.
      pose proof (var_singleton x) as Hv.
      assert (Hz : var [x] / 100 == 0) by (rewrite Hv; reflexivity).
      eapply Qle_trans; [exact Hmin|]. rewrite Hz. by vm_compute. }
  unfold monitor_interference.
  split; [|split; [|split; [|split; [|split; [|split; [|split; [|split; [|split]]]]]]]].
  - unfold detect_rf_interference. fold h.
    destruct (length h <? 10)%nat; [by vm_compute|].
    destruct (recent_signals h) as [|x l]; [by vm_compute|].
    apply Q.min_glb; [|by vm_compute]. pose proof (var_nonneg (x :: l)).
    apply Qle_shift_div_l; [reflexivity|]. rewrite Qmult_0_l. done.
  - unfold detect_rf_interference. fold h.
    destruct (length h <? 10)%nat; [by vm_compute|].
    destruct (recent_signals h) as [|x l]; [by vm_compute|]. apply Q.le_min_r.
  - intros Hlen. unfold detect_rf_interference. fold h.
    apply Nat.ltb_lt in Hlen. by rewrite Hlen.
  - intros Hlen Hr. unfold detect_rf_interference. fold h.
    apply Nat.ltb_ge in Hlen. by rewrite Hlen, Hr.
  - intros Hlen Hr. unfold detect_rf_interference. fold h.
    apply Nat.ltb_ge in Hlen. rewrite Hlen.
    by destruct (recent_signals h).
  - apply recent_signals_elem.
  - apply var_singleton.
  - apply var_pair.
  - intros Hlt.
    destruct (decide (length h < 10)%nat) as [Hlen|Hlen];
      [specialize (Hfall (or_introl Hlen)); by apply Qle_not_lt in Hfall|].
    destruct (decide (length (recent_signals h) < 2)%nat) as [Hrec|Hrec];
      [specialize (Hfall (or_intror Hrec)); by apply Qle_not_lt in Hfall|].
    lia.
  - intros Hor now. specialize (Hfall Hor).
    apply Qle_bool_iff in Hfall. by rewrite Hfall.
Qed.

Lemma rf_interference_estimate_witness :
  let s := with_history [Some 45; Some 80; Some 45] in
  let s1 := with_history (replicate 9 None ++ [Some 80]) in
  let s2 := with_history (replicate 8 None ++ [Some 45; Some 80]) in
  detect_rf_interference s = 0.1 /\ monitor_interference 5 s = s /\
  monitor_interference 5 s1 = s1 /\
  detect_rf_interference s2 = Qmin (var [45; 80] / 100) 1 /\
  var [45; 80] == 306.25.
Proof.
  intros s s1 s2.
  destruct (rf_interference_estimate s)
    as (_ & _ & H1 & _ & _ & _ & _ & _ & _ & H2).
  destruct (rf_interference_estimate s1)
    as (_ & _ & _ & _ & _ & _ & _ & _ & _ & H3).
  destruct (rf_interference_estimate s2)
    as (_ & _ & _ & _ & H4 & _ & _ & H5 & _ & _).
  split; [apply H1; vm_compute; lia|].
  split; [apply H2; left; vm_compute; lia|].
  split; [apply H3; right; vm_compute; lia|].
  split; [apply H4; [vm_compute; lia|discriminate]|].
  rewrite H5. reflexivity.
Defined.

(** Fewer than ten wifi readings do not keep the level at or below the
    threshold: with ten samples held, two readings among them (45 and 80)
    already give level 1. *)
Lemma rf_interference_two_readings_counterexample :
  ~ (forall s : system,
       (length (wifi_values (signal_strength_history s)) < 10)%nat ->
       detect_rf_interference s <= interference_threshold).
Proof.
  intros H.
  specialize (H (with_history (replicate 8 None ++ [Some 45; Some 80]))).
  assert (Hlen : (length (wifi_values (signal_strength_history
                    (with_history (replicate 8 None ++ [Some 45%Q; Some 80%Q]))))
                  < 10)%nat) by (vm_compute; lia).
  specialize (H Hlen). vm_compute in H. apply H. reflexivity.
Qed.

(** Ten samples are enough for a breach, and two of them with a wifi
    value are enough for a variance: readings 45 and 80 give 306.25. *)
Example rf_interference_breach :
  let s := with_history (replicate 8 None ++ [Some 45; Some 80]) in
  detect_rf_interference s == 1 /\
  events (monitor_interference 5 s)
  = [mk_event rf_interference 5
       (mk_details None None (Some (detect_rf_interference s)) None) CRITICAL].
Proof. split; reflexivity. Qed.

End JammingProofs.

(** ** Further facts about the fleet recovery controller *)

Module FleetMore.

Import Fleet FleetProofs.

Section WithDistance.

Context (calculate_distance : Q -> Q -> Q -> Q -> Q).

Local Abbreviation auto_rth := (Fleet.auto_rth calculate_distance).
Local Abbreviation emergency_rth := (Fleet.emergency_rth calculate_distance).
Local Abbreviation monitor_cycle := (Fleet.monitor_cycle calculate_distance).
Local Abbreviation manual_rth := (Fleet.manual_rth calculate_distance).
Local Abbreviation emergency_rth_all := (Fleet.emergency_rth_all calculate_distance).
Local Abbreviation run_op := (Fleet.run_op calculate_distance).
Local Abbreviation run := (Fleet.run calculate_distance).
Local Abbreviation calculate_return_path :=
  (Fleet.calculate_return_path calculate_distance).
Local Abbreviation calculate_emergency_return :=
  (Fleet.calculate_emergency_return calculate_distance).

(** *** Loops over the store *)

(** A loop that handles each key once, changing only the record of the
    key it handles, maps [g] over the records of the keys it visits. *)
Lemma fold_keys_lookup (f : string * drone -> fleet -> fleet) (g : drone -> drone)
    (l : list (string * drone)) s id :
  NoDup l.*1 ->
  (forall kv acc, drones (f kv acc) !! kv.1 = g <$> drones acc !! kv.1) ->
  (forall kv acc j, j <> kv.1 -> drones (f kv acc) !! j = drones acc !! j) ->
  drones (foldl (fun acc kv => f kv acc) s l) !! id
  = if decide (id ∈ l.*1) then g <$> drones s !! id else drones s !! id.
Proof.
  intros Hnd Heq Hne. revert s. induction l as [|[k v] l IH]; intros s.
  - done.
  - rewrite fmap_cons in Hnd. apply NoDup_cons in Hnd as [Hk Hnd].
    rewrite fmap_cons. cbn [foldl]. rewrite IH by done.
    destruct (decide (id = k)) as [->|Hn].
    + case_decide as Hin; [done|]. case_decide as Hin'.
      * apply (Heq (k, v)).
      * exfalso. apply Hin'. apply list_elem_of_here.
    + rewrite (Hne (k, v)) by done.
      case_decide as Hin; case_decide as Hin'; try done.
      * exfalso. apply Hin'. by apply list_elem_of_further.
      * exfalso. apply Hin. apply elem_of_cons in Hin' as [?|?]; done.
Qed.

Lemma filter_none {A} (P : A -> Prop) `{!forall x, Decision (P x)} (l : list A) :
  Forall (fun x => ~ P x) l -> filter P l = [].
Proof.
  induction 1 as [|x l Hx Hl IH]; [done|]. by rewrite filter_cons_False.
Qed.

Lemma emergency_rth_lookup now i bl s :
  drones (emergency_rth now i bl s) !! i
  = emergency_rth_update now <$> drones s !! i.
Proof.
  destruct (drones s !! i) as [d|] eqn:Hd.
  - by rewrite (emergency_rth_lookup_eq _ _ _ _ _ _ Hd).
  - unfold Fleet.emergency_rth. by rewrite Hd, Hd.
Qed.

Lemma active_keys_NoDup s :
  NoDup (filter (fun kv : string * drone => status kv.2 = active)
           (map_to_list (drones s))).*1.
Proof.
  eapply sublist_NoDup; [apply (NoDup_fst_map_to_list (drones s))|].
  apply fmap_sublist, sublist_filter.
Qed.

Lemma active_keys_elem s id :
  id ∈ (filter (fun kv : string * drone => status kv.2 = active)
          (map_to_list (drones s))).*1
  <-> exists d, drones s !! id = Some d /\ status d = active.
Proof.
  rewrite list_elem_of_fmap. split.
  - intros ([k d] & -> & Hin). apply list_elem_of_filter in Hin as [Hs Hin].
    apply elem_of_map_to_list in Hin. by exists d.
  - intros (d & Hd & Hs). exists (id, d). split; [done|].
    apply list_elem_of_filter. split; [done|]. by apply elem_of_map_to_list.
Qed.

Lemma emergency_rth_all_lookup now s id :
  drones (emergency_rth_all now s) !! id
  = (fun d => if bool_decide (status d = active)
              then emergency_rth_update now d else d) <$> drones s !! id.
Proof.
  unfold Fleet.emergency_rth_all.
  rewrite (fold_keys_lookup
             (fun kv acc => emergency_rth now kv.1 (battery kv.2) acc)
             (emergency_rth_update now)).
  - case_decide as Hin.
    + apply active_keys_elem in Hin as (d & Hd & Hs). rewrite Hd. simpl.
      by rewrite bool_decide_eq_true_2.
    + destruct (drones s !! id) as [d|] eqn:Hd; [|done]. simpl.
      rewrite bool_decide_eq_false_2; [done|]. intros Hs. apply Hin.
      apply active_keys_elem. by exists d.
  - apply active_keys_NoDup.
  - intros kv acc. apply emergency_rth_lookup.
  - intros kv acc j Hj. by apply emergency_rth_lookup_ne.
Qed.

Lemma emergency_rth_fold_lengths now (l : list (string * drone)) s :
  (forall kv, kv ∈ l -> is_Some (drones s !! kv.1)) ->
  let s' := foldl (fun acc kv => emergency_rth now kv.1 (battery kv.2) acc) s l in
  length (spawned s') = (length (spawned s) + length l)%nat /\
  length (alerts s') = (length (alerts s) + length l)%nat.
Proof.
  revert s. induction l as [|[k v] l IH]; intros s Hl; simpl.
  - split; lia.
  - destruct (Hl (k, v)) as [d Hd]; [apply list_elem_of_here|].
    destruct (IH (emergency_rth now k (battery v) s)) as [H1 H2].
    { intros kv Hkv. destruct (Hl kv) as [d' Hd']; [by apply list_elem_of_further|].
      destruct (decide (kv.1 = k)) as [->|Hne].
      - rewrite emergency_rth_lookup. cbn [fst] in Hd. rewrite Hd. by eexists.
      - rewrite emergency_rth_lookup_ne by done. by eexists. }
    rewrite H1, H2. unfold Fleet.emergency_rth. cbn [fst] in Hd.
    rewrite Hd. simpl. rewrite !length_app. simpl. lia.
Qed.

(** X2. [emergency_rth_all] creates one emergency journey task and sends
    one alert for each unit that [get_fleet_status] counted as active;
    afterwards [get_fleet_status] counts no active unit and the same total. *)
Theorem emergency_rth_all_counts now s :
  let n := active_drones (get_fleet_status s) in
  let s' := emergency_rth_all now s in
  length (spawned s') = (length (spawned s) + n)%nat /\
  length (alerts s') = (length (alerts s) + n)%nat /\
  active_drones (get_fleet_status s') = 0%nat /\
  total_drones (get_fleet_status s') = total_drones (get_fleet_status s).
Proof.
  intros n s'.
  assert (Hmap : drones s'
    = (fun d => if bool_decide (status d = active)
                then emergency_rth_update now d else d) <$> drones s).
  { apply map_eq. intros id. subst s'.
    by rewrite emergency_rth_all_lookup, lookup_fmap. }
  destruct (emergency_rth_fold_lengths now
              (filter (fun kv : string * drone => status kv.2 = active)
                 (map_to_list (drones s))) s) as [H1 H2].
  { intros kv Hkv. apply list_elem_of_filter in Hkv as [_ Hkv].
    destruct kv as [k d]. apply elem_of_map_to_list in Hkv. by eexists. }
  split; [exact H1|]. split; [exact H2|]. split.
  - simpl. rewrite filter_none; [done|]. apply Forall_forall.
    intros [k d] Hin Hs. apply elem_of_map_to_list in Hin.
    rewrite Hmap, lookup_fmap in Hin.
    destruct (drones s !! k) as [d0|]; [|done]. simpl in Hin.
    injection Hin as <-. simpl in Hs.
    destruct (bool_decide (status d0 = active)) eqn:Hb; [done|].
    by apply bool_decide_eq_false_1 in Hb.
  - simpl. rewrite Hmap. apply map_size_fmap.
Qed.

(** *** The store under the controller's operations *)

Lemma run_op_lookup_None o id s :
  drones s !! id = None -> drones (run_op o s) !! id = None.
Proof.
  intros H. destruct o; simpl.
  - unfold start_monitoring. by destruct (monitoring s).
  - by rewrite monitor_cycle_lookup, H.
  - unfold Fleet.manual_rth. destruct (drones s !! drone_id) eqn:Hd; [|done].
    simpl. rewrite auto_rth_lookup_ne; [done|]. congruence.
  - by rewrite emergency_rth_all_lookup, H.
  - destruct (decide (id = drone_id)) as [->|Hne].
    + by rewrite lookup_alter_eq, H.
    + by rewrite lookup_alter_ne.
  - unfold land_drone. destruct (drones s !! drone_id) eqn:Hd; [|done].
    simpl. rewrite lookup_insert_ne; [done|]. congruence.
Qed.

Lemma run_lookup_None ops id s :
  drones s !! id = None -> drones (run ops s) !! id = None.
Proof.
  revert s. induction ops as [|o ops IH]; intros s H; [done|].
  simpl. apply IH. by apply run_op_lookup_None.
Qed.

Lemma journey_steps_flags js id s d :
  journey_steps_only js -> drones s !! id = Some d ->
  exists d', drones (run js s) !! id = Some d' /\ flags d' = flags d.
Proof.
  intros Hjs. revert s d. induction Hjs as [|o js Ho Hjs IH]; intros s d Hd.
  - by exists d.
  - destruct o; try done. simpl.
    destruct (decide (id = drone_id)) as [->|Hne].
    + destruct (IH (journey_step home step drone_id s)
                  (journey_update home step d)) as (d' & Hd' & Hf).
      { simpl. by rewrite lookup_alter_eq, Hd. }
      by exists d'.
    + apply IH. simpl. by rewrite lookup_alter_ne.
Qed.

(** X1. When [emergency_rth_all] returns, every unit that was active when
    the command was issued is in an emergency return (status returning,
    returning_home and emergency_mode set, reason critical_battery, start
    time recorded), every other unit has the status and flags it had, and
    no record has been added or removed. The [gather] that the command
    awaits lets the journeys it has just created take their first step
    before it returns; this holds after any such journey steps, which
    write position, altitude and battery only. *)
Theorem emergency_rth_all_records now js s id :
  journey_steps_only js ->
  let s' := run (op_emergency_rth_all now :: js) s in
  (forall d, drones s !! id = Some d -> status d = active ->
     exists d',
       drones s' !! id = Some d' /\
       flags d' = (returning, Some true, Some critical_battery, Some true,
                   Some now, landed_at d)) /\
  (forall d, drones s !! id = Some d -> status d <> active ->
     exists d', drones s' !! id = Some d' /\ flags d' = flags d) /\
  (drones s !! id = None -> drones s' !! id = None).
Proof.
  intros Hjs s'. subst s'. cbn [Fleet.run foldl Fleet.run_op].
  split; [|split].
  - intros d Hd Hs.
    destruct (journey_steps_flags js id (emergency_rth_all now s)
                (emergency_rth_update now d) Hjs) as (d' & Hd' & Hf).
    { rewrite emergency_rth_all_lookup, Hd. simpl.
      by rewrite bool_decide_eq_true_2. }
    by exists d'.
  - intros d Hd Hs.
    apply (journey_steps_flags js id (emergency_rth_all now s) d Hjs).
    rewrite emergency_rth_all_lookup, Hd. simpl.
    by rewrite bool_decide_eq_false_2.
  - intros Hd. apply run_lookup_None.
    by rewrite emergency_rth_all_lookup, Hd.
Qed.

(** X3. No sequence of controller operations (monitor cycles, manual
    and bulk RTH, journey steps, landings) adds or removes a unit: the key
    set of the store, and with it [total_drones], stays the same. *)
Theorem store_keys_invariant ops s :
  dom (drones (run ops s)) = dom (drones s) /\
  total_drones (get_fleet_status (run ops s)) = total_drones (get_fleet_status s).
Proof.
  assert (Hdom : dom (drones (run ops s)) = dom (drones s)).
  { apply set_eq. intros id. rewrite !elem_of_dom. split.
    - intros Hs. destruct (drones s !! id) as [d|] eqn:Hd; [by eexists|].
      rewrite (run_lookup_None ops id s Hd) in Hs. by destruct Hs.
    - intros [d Hd].
      destruct (run_holds calculate_distance _ true_stable ops id s)
        as (d' & Hd' & _); [by exists d|]. by eexists. }
  split; [exact Hdom|]. simpl. by rewrite <- !size_dom, Hdom.
Qed.

Lemma not_active_stable : stable (fun d => status d <> active).
Proof.
  split; try done.
  - intros now d H Hs. by apply monitor_record_active in Hs.
Qed.

(** X4. Nothing sets a status back to active: a unit that is returning,
    landed or in any other non-active status is never active again,
    whatever operations follow. *)
Theorem never_active_again ops id s d :
  drones s !! id = Some d -> status d <> active ->
  exists d', drones (run ops s) !! id = Some d' /\ status d' <> active.
Proof.
  intros Hd Hs.
  apply (run_holds calculate_distance _ not_active_stable). by exists d.
Qed.

Lemma run_op_keeps_returning o id s d :
  match o with op_land _ i => i <> id | _ => True end ->
  drones s !! id = Some d -> status d = returning ->
  returning_home d = Some true ->
  exists d', drones (run_op o s) !! id = Some d' /\
             status d' = returning /\ returning_home d' = Some true.
Proof.
  intros Ho Hd Hs Hr. destruct o; simpl.
  - exists d. unfold start_monitoring. by destruct (monitoring s).
  - exists d. rewrite monitor_cycle_lookup, Hd. simpl.
    by rewrite monitor_record_returning.
  - unfold Fleet.manual_rth. destruct (decide (drone_id = id)) as [->|Hne].
    + rewrite Hd. simpl. exists (auto_rth_update now d).
      by rewrite (auto_rth_lookup_eq _ _ _ _ _ _ Hd).
    + exists d. destruct (drones s !! drone_id); [|done]. simpl.
      by rewrite auto_rth_lookup_ne.
  - exists d. rewrite emergency_rth_all_lookup, Hd. simpl.
    rewrite bool_decide_eq_false_2; [done|]. congruence.
  - destruct (decide (drone_id = id)) as [->|Hne].
    + exists (journey_update home step d). by rewrite lookup_alter_eq, Hd.
    + exists d. by rewrite lookup_alter_ne.
  - exists d. unfold land_drone. destruct (drones s !! drone_id); [|done].
    simpl. by rewrite lookup_insert_ne.
Qed.

(** X5. Only landing ends a return: a unit with status returning and
    returning_home set keeps both through any operations that do not
    include [land_drone] for it (monitor cycles, manual and bulk RTH,
    journey steps, landings of other units). *)
Theorem returning_until_landing ops id s d :
  drones s !! id = Some d -> status d = returning ->
  returning_home d = Some true -> no_landing id ops ->
  exists d', drones (run ops s) !! id = Some d' /\
             status d' = returning /\ returning_home d' = Some true.
Proof.
  intros Hd Hs Hr Hops. revert s d Hd Hs Hr.
  induction Hops as [|o ops Ho Hops IH]; intros s d Hd Hs Hr.
  - by exists d.
  - simpl. destruct (run_op_keeps_returning o id s d Ho Hd Hs Hr)
      as (d1 & Hd1 & Hs1 & Hr1). by apply (IH _ d1).
Qed.

(** X6. The per-unit operations are defensive about unknown ids: for an
    id that is not in the store, Auto and Emergency RTH, landing and both
    journey simulations change nothing (no task, no alert), and the return
    path is the zero path with home base (0, 0). *)
Theorem unknown_unit_noop now bl info write_ok id s :
  drones s !! id = None ->
  auto_rth now id bl s = s /\ emergency_rth now id bl s = s /\
  land_drone now id s = s /\
  simulate_return_journey now id info s = s /\
  simulate_emergency_return_journey write_ok now id info s = s /\
  calculate_return_path id s = mk_return_info 0 0 (0, 0) false.
Proof.
  intros H.
  unfold Fleet.auto_rth, Fleet.emergency_rth, land_drone,
    simulate_emergency_return_journey, emergency_landing_procedures,
    simulate_return_journey, Fleet.calculate_return_path.
  by rewrite H.
Qed.

(** *** [add_drone] and [update_drone_positions] *)

(** X7. [add_drone] refuses a record without an id or with an empty id;
    otherwise the record is found under its id, every other record is
    untouched, nothing is launched, and the fleet grows by one exactly
    when the id is new (a second record under the same id replaces the
    first). *)
Theorem add_drone_stores data s :
  add_drone None data s = None /\
  add_drone (Some ""%string) data s = None /\
  (forall i, i <> ""%string ->
     exists s',
       add_drone (Some i) data s = Some s' /\
       drones s' !! i = Some data /\
       (forall j, j <> i -> drones s' !! j = drones s !! j) /\
       spawned s' = spawned s /\ alerts s' = alerts s /\
       total_drones (get_fleet_status s')
       = (if drones s !! i is Some _ then total_drones (get_fleet_status s)
          else S (total_drones (get_fleet_status s))) /\
       (forall data2,
          exists s'', add_drone (Some i) data2 s' = Some s'' /\
                      drones s'' = <[i := data2]> (drones s))).
Proof.
  split; [done|]. split; [done|]. intros i Hi. unfold add_drone.
  rewrite decide_False by done. eexists. split; [reflexivity|]. simpl.
  split; [apply lookup_insert_eq|].
  split; [intros j Hj; apply lookup_insert_ne; congruence|].
  split; [reflexivity|]. split; [reflexivity|]. split.
  - destruct (drones s !! i) as [d|] eqn:Hd.
    + by erewrite map_size_insert_Some.
    + by rewrite map_size_insert_None.
  - intros data2. rewrite decide_False by done. eexists.
    split; [reflexivity|]. simpl. apply insert_insert_eq.
Qed.

Lemma update_drone_position_lookup i s :
  drones (update_drone_position i s) !! i = position_record <$> drones s !! i.
Proof.
  unfold update_drone_position, position_record.
  destruct (drones s !! i) as [d|] eqn:Hd; [|by rewrite Hd].
  cbn [fmap option_fmap option_map].
  destruct (_ && _); simpl; [|by rewrite Hd].
  by rewrite lookup_alter_eq, Hd.
Qed.

Lemma update_drone_position_lookup_ne i j s :
  j <> i -> drones (update_drone_position i s) !! j = drones s !! j.
Proof.
  intros Hne. unfold update_drone_position.
  destruct (drones s !! i) as [d|]; [|done].
  destruct (_ && _); [|done]. simpl. by rewrite lookup_alter_ne.
Qed.

(** X8. One pass of [update_drone_positions] moves exactly the units that
    are active and not returning, by +0.00001 in latitude and -0.00001 in
    longitude (a missing coordinate counts as 0); returning, landed and
    other units stay where they are, and no battery, status or flag
    changes. *)
Theorem update_drone_positions_moves s id :
  drones (update_drone_positions s) !! id = position_record <$> drones s !! id /\
  (forall d, status d <> active \/ default false (returning_home d) = true ->
     position_record d = d) /\
  (forall d, status d = active -> default false (returning_home d) = false ->
     lat (position_record d) = Some (default 0 (lat d) + 0.00001) /\
     lon (position_record d) = Some (default 0 (lon d) - 0.00001)) /\
  (forall d, alt (position_record d) = alt d /\
     battery (position_record d) = battery d /\
     status (position_record d) = status d /\
     returning_home (position_record d) = returning_home d).
Proof.
  split; [|split; [|split]].
  - unfold update_drone_positions.
    rewrite (fold_keys_lookup (fun kv acc => update_drone_position kv.1 acc)
               position_record).
    + case_decide as Hin; [done|].
      destruct (drones s !! id) as [d|] eqn:Hd; [|done].
      exfalso. apply Hin. apply list_elem_of_fmap. exists (id, d).
      split; [done|]. by apply elem_of_map_to_list.
    + apply NoDup_fst_map_to_list.
    + intros kv acc. apply update_drone_position_lookup.
    + intros kv acc j Hj. by apply update_drone_position_lookup_ne.
  - intros d [Hs|Hr]; unfold position_record.
    + by rewrite bool_decide_eq_false_2.
    + rewrite Hr. simpl. by rewrite andb_false_r.
  - intros d Hs Hr. unfold position_record.
    by rewrite bool_decide_eq_true_2, Hr.
  - intros d. unfold position_record. by destruct (_ && _).
Qed.

(** *** Return path, alerts and the journey *)

(** X9. For a known unit the ETA is the distance to the home base over
    15 m/s; the emergency path has the same distance and home base, sets
    emergency_speed and has 70% of that ETA, so for a non-negative
    distance it is never later than the normal one. *)
Theorem emergency_return_faster id s d :
  drones s !! id = Some d ->
  let r := calculate_return_path id s in
  let e := calculate_emergency_return id s in
  distance r = calculate_distance (default 0 (lat d)) (default 0 (lon d))
                 home_lat home_lon /\
  eta r = distance r / 15 /\ home_base r = (home_lat, home_lon) /\
  emergency_speed r = false /\
  distance e = distance r /\ home_base e = home_base r /\
  emergency_speed e = true /\ eta e = eta r * 0.7 /\
  (0 <= distance r -> 0 <= eta e /\ eta e <= eta r).
Proof.
  intros Hd r e. subst r e.
  unfold Fleet.calculate_emergency_return, Fleet.calculate_return_path.
  rewrite Hd. cbn -[Qdiv Qmult Qle]. repeat (split; [reflexivity|]).
  intros H0.
  assert (He : 0 <= calculate_distance (default 0 (lat d)) (default 0 (lon d))
                      home_lat home_lon / 15).
  { apply Qle_shift_div_l; [reflexivity|]. lra. }
  change (Qle_bool 15 0) with false. cbv iota.
  revert He. generalize (calculate_distance (default 0 (lat d))
                           (default 0 (lon d)) home_lat home_lon / 15).
  intros t Ht. split; lra.
Qed.

Lemma return_path_after_update id s d (f : drone -> drone) :
  drones s !! id = Some d -> lat (f d) = lat d -> lon (f d) = lon d ->
  calculate_return_path id (set_drones (insert id (f d)) s)
  = calculate_return_path id s.
Proof.
  intros Hd Hlat Hlon. unfold Fleet.calculate_return_path. simpl.
  by rewrite lookup_insert_eq, Hd, Hlat, Hlon.
Qed.

(** X10. An RTH trigger on a known unit creates exactly one journey task
    and sends exactly one alert, and both carry the return path computed
    from the unit's position: Auto RTH a plain journey and a MEDIUM alert
    with the normal ETA, Emergency RTH an emergency journey and a CRITICAL
    alert with the emergency ETA. Monitoring state is not touched. *)
Theorem rth_task_and_alert now id bl s d :
  drones s !! id = Some d ->
  (spawned (auto_rth now id bl s)
   = spawned s ++ [journey_task id (calculate_return_path id s)] /\
   alerts (auto_rth now id bl s)
   = alerts s ++ [mk_alert auto_rth_alert id bl
                    (Some (eta (calculate_return_path id s))) (Some MEDIUM)
                    None now] /\
   monitoring (auto_rth now id bl s) = monitoring s) /\
  (spawned (emergency_rth now id bl s)
   = spawned s ++ [emergency_journey_task id (calculate_emergency_return id s)] /\
   alerts (emergency_rth now id bl s)
   = alerts s ++ [mk_alert emergency_rth_alert id bl
                    (Some (eta (calculate_emergency_return id s)))
                    (Some CRITICAL) None now] /\
   monitoring (emergency_rth now id bl s) = monitoring s).
Proof.
  intros Hd. split.
  - unfold Fleet.auto_rth. rewrite Hd. cbn [spawned alerts monitoring
      notify_operators send_rth_command create_task].
    rewrite (return_path_after_update id s d (auto_rth_update now) Hd) by done.
    done.
  - unfold Fleet.emergency_rth. rewrite Hd. cbn [spawned alerts monitoring
      notify_operators send_emergency_rth_command create_task].
    unfold Fleet.calculate_emergency_return.
    rewrite (return_path_after_update id s d (emergency_rth_update now) Hd)
      by done.
    done.
Qed.

Lemma progress_le_1 (step : nat) :
  (step <= 10)%nat -> inject_Z (Z.of_nat step) / 10 <= 1.
Proof.
  intros H. apply Qle_shift_div_r; [reflexivity|]. rewrite Qmult_1_l.
  change 10 with (inject_Z 10). rewrite <- Zle_Qle. lia.
Qed.

(** X11. A journey step moves the unit from where it is now towards the
    home base of the return path: the remaining offset in latitude and in
    longitude is the current one times (1 - step/10), so it never grows
    and is zero at step 10; a missing coordinate counts as already home.
    The altitude becomes max(0, altitude * (1 - step/10)), never negative,
    never above a non-negative altitude, and zero at step 10. *)
Theorem journey_step_approaches_home home step d :
  (step <= 10)%nat ->
  let p := inject_Z (Z.of_nat step) / 10 in
  let d' := journey_update home step d in
  0 <= 1 - p /\ 1 - p <= 1 /\
  exists x y a,
    lat d' = Some x /\ lon d' = Some y /\ alt d' = Some a /\
    home.1 - x == (home.1 - default home.1 (lat d)) * (1 - p) /\
    home.2 - y == (home.2 - default home.2 (lon d)) * (1 - p) /\
    0 <= a /\ (0 <= default 50 (alt d) -> a <= default 50 (alt d)) /\
    (step = 10%nat -> x == home.1 /\ y == home.2 /\ a == 0).
Proof.
  intros Hstep p d'. pose proof (progress_nonneg step) as H0.
  pose proof (progress_le_1 step Hstep) as H1. fold p in H0, H1.
  split; [lra|]. split; [lra|]. subst d'. unfold journey_update. fold p.
  cbn [lat lon alt]. do 3 eexists. split; [reflexivity|].
  split; [reflexivity|]. split; [reflexivity|].
  split; [ring|]. split; [ring|]. split; [apply Q.le_max_l|]. split.
  - intros Ha. apply Q.max_lub; [done|].
    set (a := default 50 (alt d)) in *. clearbody a p. nra.
  - intros ->. assert (Hp : p == 1) by reflexivity.
    split; [|split].
    + rewrite Hp. ring.
    + rewrite Hp. ring.
    + assert (E : default 50 (alt d) * (1 - p) == 0) by (rewrite Hp; ring).
      destruct (Q.max_spec 0 (default 50 (alt d) * (1 - p))) as [[? E']|[? E']];
        rewrite E'; [exact E|reflexivity].
Qed.

Lemma Qmax0_sub x y : 0 <= y -> Qmax 0 (Qmax 0 x - y) == Qmax 0 (x - y).
Proof.
  intros Hy.
  destruct (Q.max_spec 0 x) as [[H1 H2]|[H1 H2]];
    destruct (Q.max_spec 0 (x - y)) as [[H3 H4]|[H3 H4]];
    destruct (Q.max_spec 0 (Qmax 0 x - y)) as [[H5 H6]|[H5 H6]];
    rewrite H4, H6; lra.
Qed.

Lemma journey_cost_nonneg step : 0 <= journey_cost step.
Proof.
  unfold journey_cost. pose proof (progress_nonneg step).
  set (p := inject_Z (Z.of_nat step) / 10) in *. clearbody p. lra.
Qed.

Lemma journey_total_nonneg steps : 0 <= journey_total steps.
Proof.
  induction steps as [|k steps IH]; [apply Qle_refl|].
  change (0 <= journey_cost k + journey_total steps).
  pose proof (journey_cost_nonneg k). lra.
Qed.

Lemma journey_battery_total steps k b :
  journey_battery b (k :: steps)
  == Qmax 0 (b - (journey_cost k + journey_total steps)).
Proof.
  revert k b. induction steps as [|k' steps IH]; intros k b.
  - unfold journey_battery, journey_total. simpl.
    apply Q.max_compat; [reflexivity|]. ring.
  - change (journey_battery b (k :: k' :: steps))
      with (journey_battery (Qmax 0 (b - journey_cost k)) (k' :: steps)).
    rewrite IH.
    change (journey_total (k' :: steps))
      with (journey_cost k' + journey_total steps).
    pose proof (journey_cost_nonneg k'). pose proof (journey_total_nonneg steps).
    rewrite Qmax0_sub by lra. apply Q.max_compat; [reflexivity|]. ring.
Qed.

Lemma journey_fold_battery home id steps s d b :
  drones s !! id = Some d -> battery d = Some b ->
  exists d1,
    drones (foldl (fun acc step => journey_step home step id acc) s steps) !! id
    = Some d1 /\
    battery d1 = Some (journey_battery b steps).
Proof.
  revert s d b. induction steps as [|k steps IH]; intros s d b Hd Hb.
  - by exists d.
  - cbn [foldl].
    apply (IH _ (journey_update home k d)).
    + simpl. by rewrite lookup_alter_eq, Hd.
    + unfold journey_update. simpl. by rewrite Hb.
Qed.

(** In the exact arithmetic of the model the eleven decrements add up to
    8.25. *)
Lemma journey_battery_exact now id info s d b :
  drones s !! id = Some d -> battery d = Some b ->
  exists d' b',
    drones (simulate_return_journey now id info s) !! id = Some d' /\
    battery d' = Some b' /\ b' == Qmax 0 (b - 8.25).
Proof.
  intros Hd Hb. unfold simulate_return_journey. rewrite Hd.
  destruct (journey_fold_battery (home_base info) id (seq 0 11) s d b Hd Hb)
    as (d1 & Hd1 & Hb1).
  exists (land_update now d1), (journey_battery b (seq 0 11)).
  split; [by apply land_drone_lookup_eq|]. split; [exact Hb1|].
  change (seq 0 11) with (0%nat :: seq 1 10). rewrite journey_battery_total.
  apply Q.max_compat; [reflexivity|].
  assert (Et : journey_cost 0 + journey_total (seq 1 10) == 8.25)
    by reflexivity.
  rewrite Et. reflexivity.
Qed.

(** X12. A return journey that runs undisturbed never charges the
    battery and costs between 8 and 8.5 points whatever the distance: a
    unit that starts it with a battery b between 0 and 100 lands with a
    battery that is not negative, at least b - 8.5, at most max(0, b - 8),
    and below b when b is positive. *)
Theorem journey_battery_cost_bounds now id info s d b :
  drones s !! id = Some d -> battery d = Some b -> 0 <= b -> b <= 100 ->
  exists d' b',
    drones (simulate_return_journey now id info s) !! id = Some d' /\
    battery d' = Some b' /\
    0 <= b' /\ b - 8.5 <= b' /\ b' <= Qmax 0 (b - 8) /\ b' <= b /\
    (0 < b -> b' < b).
Proof.
  intros Hd Hb H0 H100.
  destruct (journey_battery_exact now id info s d b Hd Hb)
    as (d' & b' & Hd' & Hb' & E).
  exists d', b'. split; [exact Hd'|]. split; [exact Hb'|].
  destruct (Q.max_spec 0 (b - 8.25)) as [[H1 H2]|[H1 H2]];
    destruct (Q.max_spec 0 (b - 8)) as [[H3 H4]|[H3 H4]];
    rewrite H2 in E; rewrite H4; repeat split; intros; lra.
Qed.

(** X13. Outside the RTH triggers a monitor cycle only drains or charges:
    an active unit above 20 that is not returning loses exactly 0.5; a
    landed unit below 100 gains 2, capped at 100, and one at 100 or above
    is left alone; an active unit above 10 that is already flagged
    returning_home, a returning unit and a unit without a numeric battery
    are not touched. *)
Theorem monitor_cycle_drain_charge now s id d :
  drones s !! id = Some d ->
  let d' := monitor_record now d in
  drones (monitor_cycle now s) !! id = Some d' /\
  (forall b, status d = active -> battery d = Some b -> 20 < b ->
     default false (returning_home d) = false ->
     exists b', d' = set_battery b' d /\ b' == b - 0.5) /\
  (forall b, status d = landed -> battery d = Some b -> b < 100 ->
     d' = set_battery (Qmin 100 (b + 2)) d) /\
  (forall b, status d = landed -> battery d = Some b -> 100 <= b -> d' = d) /\
  (forall b, status d = active -> battery d = Some b -> 10 < b ->
     default false (returning_home d) = true -> d' = d) /\
  (status d = returning -> d' = d) /\
  (battery d = None -> d' = d).
Proof.
  intros Hd d'. split; [by rewrite monitor_cycle_lookup, Hd|].
  subst d'. unfold monitor_record, emergency_rth_threshold, rth_threshold.
  split; [|split; [|split; [|split; [|split]]]].
  - intros b Hs Hb Hlt Hr. rewrite Hs, Hb, Hr.
    rewrite !Qle_bool_false by lra. simpl. eexists. split; [reflexivity|].
    destruct (Q.max_spec 0 (b - 0.5)) as [[H1 H2]|[H1 H2]]; rewrite H2; lra.
  - intros b Hs Hb Hlt. rewrite Hs, Hb. by rewrite Qle_bool_false.
  - intros b Hs Hb Hle. rewrite Hs, Hb. by rewrite Qle_bool_true.
  - intros b Hs Hb Hlt Hr. rewrite Hs, Hb, Hr.
    rewrite Qle_bool_false by lra. by rewrite andb_false_r.
  - by intros ->.
  - intros ->. by destruct (status d).
Qed.

End WithDistance.

(** *** The theorems at concrete fleets *)

Lemma emergency_rth_all_records_witness :
  let s' := run fixed_distance
              [op_emergency_rth_all 5;
               op_journey_step (home_lat, home_lon) 0 "GUARD-04";
               op_journey_step (home_lat, home_lon) 0 "GUARD-01"]
              (land_drone 3 "GUARD-01" drone_fleet) in
  (exists d', drones s' !! "GUARD-04" = Some d' /\
              flags d' = (returning, Some true, Some critical_battery,
                          Some true, Some 5%nat, None)) /\
  (exists d', drones s' !! "GUARD-01" = Some d' /\
              flags d' = (landed, Some false, None, Some false, None,
                          Some 3%nat)) /\
  drones s' !! "GUARD-09" = None.
Proof.
  intros s'.
  assert (Hjs : journey_steps_only
                  [op_journey_step (home_lat, home_lon) 0 "GUARD-04";
                   op_journey_step (home_lat, home_lon) 0 "GUARD-01"])
    by (repeat constructor).
  destruct (emergency_rth_all_records fixed_distance 5 _
              (land_drone 3 "GUARD-01" drone_fleet) "GUARD-04" Hjs)
    as (H1 & _ & _).
  destruct (emergency_rth_all_records fixed_distance 5 _
              (land_drone 3 "GUARD-01" drone_fleet) "GUARD-01" Hjs)
    as (_ & H2 & _).
  destruct (emergency_rth_all_records fixed_distance 5 _
              (land_drone 3 "GUARD-01" drone_fleet) "GUARD-09" Hjs)
    as (_ & _ & H3).
  split; [|split].
  - apply (H1 (config_drone 28.7020 77.0950 80.0 91)); reflexivity.
  - apply (H2 (land_update 3 (config_drone 28.7041 77.1025 120.4 78)));
      [reflexivity|discriminate].
  - apply H3. reflexivity.
Defined.

Lemma never_active_again_witness :
  exists d',
    drones (run fixed_distance
              [op_monitor_cycle 4; op_manual_rth 5 "GUARD-01";
               op_emergency_rth_all 6; op_land 7 "GUARD-01"; op_monitor_cycle 8]
              (land_drone 3 "GUARD-01" drone_fleet)) !! "GUARD-01" = Some d' /\
    status d' <> active.
Proof.
  apply (never_active_again fixed_distance _ "GUARD-01"
           (land_drone 3 "GUARD-01" drone_fleet)
           (land_update 3 (config_drone 28.7041 77.1025 120.4 78))).
  - reflexivity.
  - discriminate.
Defined.

Lemma returning_until_landing_witness :
  exists d',
    drones (run fixed_distance
              [op_monitor_cycle 1; op_manual_rth 2 "GUARD-02";
               op_journey_step (home_lat, home_lon) 0 "GUARD-02";
               op_emergency_rth_all 3; op_land 4 "GUARD-01"]
              (emergency_rth fixed_distance 0 "GUARD-02" (Some 25) drone_fleet))
      !! "GUARD-02" = Some d' /\
    status d' = returning /\ returning_home d' = Some true.
Proof.
  apply (returning_until_landing fixed_distance _ "GUARD-02"
           (emergency_rth fixed_distance 0 "GUARD-02" (Some 25) drone_fleet)
           (emergency_rth_update 0 (config_drone 28.7055 77.1100 95.1 25))).
  - reflexivity.
  - reflexivity.
  - reflexivity.
  - repeat constructor. discriminate.
Defined.

Lemma unknown_unit_noop_witness :
  auto_rth fixed_distance 0 "GUARD-09" None drone_fleet = drone_fleet /\
  land_drone 0 "GUARD-09" drone_fleet = drone_fleet /\
  calculate_return_path fixed_distance "GUARD-09" drone_fleet
  = mk_return_info 0 0 (0, 0) false.
Proof.
  destruct (unknown_unit_noop fixed_distance 0 None
              (mk_return_info 0 0 (0, 0) false) true "GUARD-09" drone_fleet)
    as (H1 & _ & H3 & _ & _ & H7); [reflexivity|].
  split; [exact H1|]. split; [exact H3|exact H7].
Defined.

Lemma add_drone_stores_witness :
  exists s',
    add_drone (Some "GUARD-05"%string) critical_drone drone_fleet = Some s' /\
    drones s' !! "GUARD-05" = Some critical_drone /\
    total_drones (get_fleet_status s') = 5%nat.
Proof.
  destruct (add_drone_stores critical_drone drone_fleet) as (_ & _ & H).
  destruct (H "GUARD-05"%string) as (s' & H1 & H2 & _ & _ & _ & H6 & _);
    [discriminate|].
  exists s'. split; [exact H1|]. split; [exact H2|]. exact H6.
Defined.

Lemma update_drone_positions_moves_witness :
  lat <$> drones (update_drone_positions drone_fleet) !! "GUARD-02"
  = Some (Some (28.7055 + 0.00001)) /\
  drones (update_drone_positions
            (emergency_rth fixed_distance 0 "GUARD-02" (Some 25) drone_fleet))
    !! "GUARD-02"
  = Some (emergency_rth_update 0 (config_drone 28.7055 77.1100 95.1 25)).
Proof.
  split.
  - rewrite (proj1 (update_drone_positions_moves drone_fleet "GUARD-02")).
    reflexivity.
  - rewrite (proj1 (update_drone_positions_moves _ "GUARD-02")).
    reflexivity.
Defined.

Lemma emergency_return_faster_witness :
  eta (calculate_return_path fixed_distance "GUARD-03" drone_fleet) = 1500 / 15 /\
  eta (calculate_emergency_return fixed_distance "GUARD-03" drone_fleet)
  <= eta (calculate_return_path fixed_distance "GUARD-03" drone_fleet).
Proof.
  destruct (emergency_return_faster fixed_distance "GUARD-03" drone_fleet
              (config_drone 28.7000 77.1000 140.0 15))
    as (_ & H2 & _ & _ & _ & _ & _ & _ & H9); [reflexivity|].
  split; [exact H2|]. apply H9. discriminate.
Defined.

Lemma rth_task_and_alert_witness :
  spawned (auto_rth fixed_distance 9 "GUARD-03" (Some 15) drone_fleet)
  = [journey_task "GUARD-03"
       (calculate_return_path fixed_distance "GUARD-03" drone_fleet)] /\
  length (alerts (emergency_rth fixed_distance 9 "GUARD-03" (Some 15) drone_fleet))
  = 1%nat.
Proof.
  destruct (rth_task_and_alert fixed_distance 9 "GUARD-03" (Some 15) drone_fleet
              (config_drone 28.7000 77.1000 140.0 15))
    as [(H1 & _ & _) (_ & H2 & _)]; [reflexivity|].
  split; [exact H1|]. rewrite H2. reflexivity.
Defined.

Lemma journey_step_approaches_home_witness :
  exists x y a,
    lat (journey_update (home_lat, home_lon) 10 critical_drone) = Some x /\
    lon (journey_update (home_lat, home_lon) 10 critical_drone) = Some y /\
    alt (journey_update (home_lat, home_lon) 10 critical_drone) = Some a /\
    x == home_lat /\ y == home_lon /\ a == 0.
Proof.
  destruct (journey_step_approaches_home (home_lat, home_lon) 10 critical_drone)
    as (_ & _ & x & y & a & Hx & Hy & Ha & _ & _ & _ & _ & H10); [lia|].
  destruct (H10 eq_refl) as (E1 & E2 & E3).
  exists x, y, a. repeat split; assumption.
Defined.

Lemma journey_battery_cost_bounds_witness :
  exists d' b',
    drones (simulate_return_journey 7 "GUARD-03"
              (calculate_return_path fixed_distance "GUARD-03" drone_fleet)
              drone_fleet) !! "GUARD-03" = Some d' /\
    battery d' = Some b' /\ 6.5 <= b' /\ b' <= 7.
Proof.
  destruct (journey_battery_cost_bounds 7 "GUARD-03"
              (calculate_return_path fixed_distance "GUARD-03" drone_fleet)
              drone_fleet (config_drone 28.7000 77.1000 140.0 15) 15)
    as (d' & b' & Hd' & Hb' & _ & Hlo & Hhi & _);
    [reflexivity|reflexivity|discriminate|discriminate|].
  exists d', b'. split; [exact Hd'|]. split; [exact Hb'|].
  split.
  - eapply Qle_trans; [|exact Hlo]. discriminate.
  - eapply Qle_trans; [exact Hhi|]. discriminate.
Defined.

Lemma monitor_cycle_drain_charge_witness :
  battery <$> drones (monitor_cycle fixed_distance 0 drone_fleet) !! "GUARD-01"
  = Some (Some (Qmax 0 (78 - 0.5))) /\
  battery <$> drones (monitor_cycle fixed_distance 1
                        (land_drone 0 "GUARD-01" drone_fleet)) !! "GUARD-01"
  = Some (Some (Qmin 100 (78 + 2))).
Proof.
  split.
  - rewrite (proj1 (monitor_cycle_drain_charge fixed_distance 0 drone_fleet
                      "GUARD-01" (config_drone 28.7041 77.1025 120.4 78) eq_refl)).
    reflexivity.
  - rewrite (proj1 (monitor_cycle_drain_charge fixed_distance 1
                      (land_drone 0 "GUARD-01" drone_fleet) "GUARD-01"
                      (land_update 0 (config_drone 28.7041 77.1025 120.4 78))
                      eq_refl)).
    reflexivity.
Defined.

End FleetMore.

(** ** Further facts about the signal-integrity controller *)

Module JammingMore.

Import Jamming JammingProofs.

(** *** Countermeasures *)

Lemma switch_to_backup_channel_eq s :
  switch_to_backup_channel s
  = (let c := match current_channel s with
              | ch_wifi => ch_cellular
              | _ => ch_wifi
              end in
     (c, set_current_channel c s)).
Proof.
  unfold switch_to_backup_channel. by destruct (current_channel s).
Qed.

(** X14. [switch_to_backup_channel] always leaves the current channel:
    from wifi it goes to cellular, from cellular or ethernet to wifi. So
    ethernet is never chosen, and a second switch from wifi or cellular
    returns to the channel the first one left. Nothing but the channel
    changes. *)
Theorem backup_channel_choice s :
  let r := switch_to_backup_channel s in
  r.1 <> current_channel s /\ r.1 <> ch_ethernet /\
  current_channel r.2 = r.1 /\
  (current_channel s <> ch_ethernet ->
   (switch_to_backup_channel r.2).1 = current_channel s) /\
  jamming_detected r.2 = jamming_detected s /\
  signal_strength_history r.2 = signal_strength_history s /\
  events r.2 = events s /\ handlers r.2 = handlers s.
Proof.
  intros r. subst r. rewrite !switch_to_backup_channel_eq. simpl.
  destruct (current_channel s); repeat split; done.
Qed.

(** X15. What [activate_countermeasures] does is fixed by the event and
    the write: it switches channel exactly for signal_drop and network
    events, raises the transmission power exactly for rf_interference
    events, enables frequency hopping exactly for HIGH and CRITICAL
    events, and records the evidence exactly when the write succeeds;
    each at most once. *)
Theorem countermeasures_selected write_ok e s :
  let s1 := (activate_countermeasures write_ok e s).2 in
  exists new,
    activated s1 = activated s ++ new /\ NoDup new /\
    ((exists c, switched_to c ∈ new) <->
     ev_type e = signal_drop \/ ev_type e = network) /\
    (current_channel s1 <> current_channel s <->
     ev_type e = signal_drop \/ ev_type e = network) /\
    (increased_power ∈ new <-> ev_type e = rf_interference) /\
    (frequency_hopping ∈ new <->
     ev_severity e = HIGH \/ ev_severity e = CRITICAL) /\
    (evidence_stored ∈ new <-> write_ok = true) /\
    (length (evidence s1) = length (evidence s) + (if write_ok then 1 else 0))%nat.
Proof.
  intros s1. subst s1.
  unfold activate_countermeasures, store_jamming_evidence.
  rewrite switch_to_backup_channel_eq.
  destruct e as [ty ts d sev]. cbn [ev_type ev_severity].
  destruct ty, sev, write_ok; cbn; rewrite <- ?app_assoc; cbn;
    (eexists; split; [try reflexivity; by rewrite app_nil_r|]).
  all: split;
    [repeat (apply NoDup_cons; split;
             [rewrite ?elem_of_cons, ?elem_of_nil; intuition congruence|]);
     apply NoDup_nil_2|].
  all: rewrite ?length_app; cbn.
  all: destruct (current_channel s).
  all: repeat split; try lia; try reflexivity; try discriminate.
  all: try (intros _; by (left + right)).
  all: try (intros _; eexists; apply list_elem_of_here).
  all: try (intros _; rewrite ?elem_of_cons; by auto 6).
  all: try (intros H; exfalso; try destruct H as [c H];
            rewrite ?elem_of_cons, ?elem_of_nil in H; intuition discriminate).
  all: try (intros H _; exfalso; intuition discriminate).
Qed.

Lemma activate_countermeasures_evidence e s :
  let s1 := (activate_countermeasures true e s).2 in
  evidence s1
  = evidence s ++ [(e, drop (length (signal_strength_history s) - 20)
                         (signal_strength_history s))] /\
  signal_strength_history s1 = signal_strength_history s.
Proof.
  unfold activate_countermeasures, store_jamming_evidence.
  rewrite switch_to_backup_channel_eq.
  destruct (ev_type e), (ev_severity e); simpl; done.
Qed.

Lemma progress_to_callbacks e s :
  handlers s = [at_countermeasures e] ->
  let s' := progress 0 true s in
  handlers s' = [at_callbacks e] /\
  jamming_detected s' = jamming_detected s /\ events s' = events s /\
  alert_callbacks s' = alert_callbacks s /\ notified s' = notified s /\
  signal_strength_history s' = signal_strength_history s /\
  evidence s'
  = evidence s ++ [(e, drop (length (signal_strength_history s) - 20)
                         (signal_strength_history s))].
Proof.
  intros Hh.
  destruct (progress_at_countermeasures true e s Hh) as (F1 & F2 & F3 & F4 & F5).
  cbv zeta. rewrite F1, F2, F3, F4, F5. repeat (split; [reflexivity|]).
  unfold progress. rewrite Hh.
  change ([at_countermeasures e] !! 0%nat) with (Some (at_countermeasures e)).
  cbv beta iota.
  pose proof (activate_countermeasures_evidence e s) as [E1 E2].
  pose proof (activate_countermeasures_ok true e s) as Hok.
  destruct (activate_countermeasures true e s) as [ok s1].
  cbn [fst snd] in *. subst ok. cbn. by rewrite E1, E2.
Qed.

(** X16. A breach handled with a successful evidence write runs its full
    course and gives the controller back: after the countermeasures, the
    callback loop and the cooldown the controller is idle again, with one
    more event, one evidence record holding that event and the last (at
    most 20) signal samples, and one call of every callback, whether or
    not callbacks raise. *)
Theorem handled_breach_returns_to_idle ty d now s :
  idle s ->
  let e := mk_event ty now d (calculate_jamming_severity ty d) in
  let kept := drop (length (signal_strength_history s) - 20)
                (signal_strength_history s) in
  let s4 := run [a_breach ty d now; a_progress 0 true; a_progress 0 true;
                 a_cooldown_elapsed 0] s in
  idle s4 /\ events s4 = events s ++ [e] /\
  notified s4 = notified s ++ dispatch e (alert_callbacks s) /\
  evidence s4 = evidence s ++ [(e, kept)] /\
  (length kept <= 20)%nat /\ kept `suffix_of` signal_strength_history s /\
  signal_strength_history s4 = signal_strength_history s.
Proof.
  intros [Hf Hh] e kept s4. subst s4. cbn [run foldl step].
  set (s1 := handle_potential_jamming ty d now s).
  assert (H1 : handlers s1 = [at_countermeasures e] /\
               events s1 = events s ++ [e] /\
               alert_callbacks s1 = alert_callbacks s /\
               notified s1 = notified s /\ evidence s1 = evidence s /\
               signal_strength_history s1 = signal_strength_history s).
  { subst s1. unfold handle_potential_jamming. rewrite Hf. simpl.
    by rewrite Hh. }
  destruct H1 as (A1 & A2 & A3 & A4 & A5 & A6).
  destruct (progress_to_callbacks e s1 A1) as (B1 & B2 & B3 & B4 & B5 & B6 & B7).
  set (s2 := progress 0 true s1) in *.
  assert (H3 : handlers (progress 0 true s2) = [at_cooldown] /\
               events (progress 0 true s2) = events s2 /\
               notified (progress 0 true s2)
               = notified s2 ++ dispatch e (alert_callbacks s2) /\
               evidence (progress 0 true s2) = evidence s2 /\
               signal_strength_history (progress 0 true s2)
               = signal_strength_history s2).
  { unfold progress. rewrite B1. simpl. by rewrite B1. }
  destruct H3 as (C1 & C2 & C3 & C4 & C5).
  set (s3 := progress 0 true s2) in *.
  unfold cooldown_elapsed. rewrite C1. simpl.
  split; [split; [reflexivity|]; simpl; by rewrite C1|].
  rewrite C2, C3, C4, C5, B3, B4, B5, B6, B7, A2, A3, A4, A5, A6.
  repeat (split; [reflexivity|]). split; [|split; [|reflexivity]].
  - subst kept. rewrite length_drop. lia.
  - apply suffix_drop.
Qed.

(** *** What the monitors report *)

Lemma bucket_low score : score < 40 -> bucket score = LOW.
Proof.
  intros H. unfold bucket.
  by rewrite !FleetProofs.Qle_bool_false by lra.
Qed.

Lemma bucket_critical score : 80 <= score -> bucket score = CRITICAL.
Proof. intros H. unfold bucket. by rewrite FleetProofs.Qle_bool_true. Qed.

Lemma breach_creates ty d now s :
  jamming_detected s = false ->
  let e := mk_event ty now d (calculate_jamming_severity ty d) in
  events (handle_potential_jamming ty d now s) = events s ++ [e] /\
  handlers (handle_potential_jamming ty d now s)
  = handlers s ++ [at_countermeasures e] /\
  jamming_detected (handle_potential_jamming ty d now s) = true.
Proof. intros Hf. unfold handle_potential_jamming. by rewrite Hf. Qed.

(** X17. The interference monitor reports only levels above 0.8, so
    every rf_interference event it creates has a score above 80 and is
    CRITICAL; at a level of 0.8 or less, or with the flag up, its cycle
    changes nothing. *)
Theorem interference_events_critical now s :
  (jamming_detected s = false ->
   interference_threshold < detect_rf_interference s ->
   exists e,
     events (monitor_interference now s) = events s ++ [e] /\
     handlers (monitor_interference now s) = handlers s ++ [at_countermeasures e] /\
     ev_type e = rf_interference /\ ev_severity e = CRITICAL /\
     interference_level (ev_details e) = Some (detect_rf_interference s)) /\
  (detect_rf_interference s <= interference_threshold \/
   jamming_detected s = true -> monitor_interference now s = s).
Proof.
  unfold monitor_interference, interference_threshold. split.
  - intros Hf Hlt. rewrite FleetProofs.Qle_bool_false by done. simpl.
    destruct (breach_creates rf_interference
                (mk_details None None (Some (detect_rf_interference s)) None)
                now s Hf) as (E1 & E2 & _).
    eexists. split; [exact E1|]. split; [exact E2|]. split; [done|].
    split; [|done]. simpl. apply bucket_critical.
    unfold severity_scores. simpl. lra.
  - intros [Hle|Hf].
    + by rewrite FleetProofs.Qle_bool_true.
    + destruct (negb _); [|done]. by apply breach_dropped.
Qed.

(** X18. The GPS monitor reports when GPS is unavailable or less accurate
    than 50 m; an event for an unavailable GPS is CRITICAL, one for poor
    accuracy alone is only LOW. With the simulated health check
    (available, 5 m) the monitor never reports. *)
Theorem gps_monitor_reports status now s :
  monitor_gps_jamming check_gps_health now s = s /\
  (gps_available status = true -> gps_accuracy status <= 50 ->
   monitor_gps_jamming status now s = s) /\
  (gps_available status = false \/ 50 < gps_accuracy status ->
   monitor_gps_jamming status now s
   = handle_potential_jamming gps
       (mk_details None None None (Some (gps_available status))) now s /\
   calculate_jamming_severity gps
     (mk_details None None None (Some (gps_available status)))
   = (if gps_available status then LOW else CRITICAL)).
Proof.
  unfold monitor_gps_jamming. split; [done|]. split.
  - intros Ha Hacc. by rewrite Ha, FleetProofs.Qle_bool_true.
  - intros H. split.
    + destruct H as [Ha|Hacc].
      * by rewrite Ha.
      * rewrite (FleetProofs.Qle_bool_false _ _ Hacc). simpl.
        by rewrite orb_true_r.
    + by destruct (gps_available status).
Qed.

(** X19. The network monitor's packet loss is the share of the three
    probe servers that could not be reached, between 0 and 100. It reports
    exactly when at least one server is unreachable (a loss of a third or
    more, above the threshold of 15), and since the score is the loss
    divided by 5, at most 20, every event it creates is LOW. *)
Theorem network_monitor_reports connect now s :
  let r := monitor_network_health connect now s in
  let loss := nh_packet_loss r.1 in
  0 <= loss /\ loss <= 100 /\
  ((forall server, server ∈ test_servers -> is_Some (connect server)) ->
   loss == 0 /\ r.2 = s) /\
  ((exists server, server ∈ test_servers /\ connect server = None) ->
   100 / 3 <= loss /\
   r.2 = handle_potential_jamming network
           (mk_details None (Some loss) None None) now s /\
   calculate_jamming_severity network (mk_details None (Some loss) None None)
   = LOW).
Proof.
  intros r loss. subst loss r. unfold monitor_network_health, test_servers.
  cbn [map fst snd nh_packet_loss].
  destruct (connect "8.8.8.8"%string) as [t1|] eqn:E1;
    destruct (connect "1.1.1.1"%string) as [t2|] eqn:E2;
    destruct (connect "208.67.222.222"%string) as [t3|] eqn:E3;
    cbn [filter list_filter length decide_rel is_Some_dec Nat.sub].
  all: split; [by vm_compute|]; split; [by vm_compute|]; split.
  all: try (intros Hall;
            try (destruct (Hall "8.8.8.8"%string) as [? Hx];
                 [set_solver|congruence]);
            try (destruct (Hall "1.1.1.1"%string) as [? Hx];
                 [set_solver|congruence]);
            try (destruct (Hall "208.67.222.222"%string) as [? Hx];
                 [set_solver|congruence]);
            by split; [vm_compute|]).
  all: try (intros (server & Hin & Hnone); exfalso;
            rewrite !elem_of_cons, elem_of_nil in Hin;
            destruct Hin as [->|[->|[->|[]]]]; congruence).
  all: intros _; split; [by vm_compute|]; split; [reflexivity|];
    by vm_compute.
Qed.

(** *** Signal samples *)

Lemma handle_potential_jamming_history ty d now s :
  signal_strength_history (handle_potential_jamming ty d now s)
  = signal_strength_history s.
Proof. unfold handle_potential_jamming. by destruct (jamming_detected s). Qed.

Lemma analyze_signal_patterns_history now s s' :
  analyze_signal_patterns now s = Some s' ->
  signal_strength_history s' = signal_strength_history s.
Proof.
  unfold analyze_signal_patterns. intros H.
  repeat case_match; simplify_eq; try done;
    apply handle_potential_jamming_history.
Qed.

(** X20. A pass of the signal monitor appends the new sample at the end
    of the history and keeps at most 100 entries: below 100 entries
    nothing is lost, at 100 the oldest entry is dropped (first in, first
    out). The analysis that may follow never changes the history. *)
Theorem signal_history_bounded w c now s s' :
  (length (signal_strength_history s) <= 100)%nat ->
  monitor_signal_strength w c now s = Some s' ->
  let smp := mk_sample now w c in
  let h := signal_strength_history s in
  (length (signal_strength_history s') <= 100)%nat /\
  last (signal_strength_history s') = Some smp /\
  ((length h < 100)%nat -> signal_strength_history s' = h ++ [smp]) /\
  ((length h = 100)%nat -> signal_strength_history s' = drop 1 h ++ [smp]).
Proof.
  intros Hlen Hm smp h. unfold monitor_signal_strength in Hm. fold smp h in Hm.
  set (h1 := h ++ [smp]) in *.
  set (h2 := if (100 <? length h1)%nat then drop 1 h1 else h1) in *.
  assert (Hh : signal_strength_history s' = h2).
  { destruct (5 <=? length h2)%nat.
    - by rewrite (analyze_signal_patterns_history _ _ _ Hm).
    - by injection Hm as <-. }
  rewrite Hh. subst h2 h1. rewrite length_app. cbn [length].
  fold h in Hlen. destruct (100 <? length h + 1)%nat eqn:E.
  - apply Nat.ltb_lt in E. assert (Hl : length h = 100%nat) by lia.
    rewrite drop_app_le by lia. rewrite length_app, length_drop. cbn [length].
    rewrite last_snoc. repeat split; try done; lia.
  - apply Nat.ltb_ge in E. rewrite length_app. cbn [length].
    rewrite last_snoc. repeat split; try done; lia.
Qed.

(** X21. The signal analysis needs ten samples: with fewer it reports
    nothing and changes nothing, and the same holds whenever the flag is
    already up. *)
Theorem signal_analysis_needs_ten now s :
  ((length (signal_strength_history s) < 10)%nat ->
   analyze_signal_patterns now s = Some s) /\
  (jamming_detected s = true -> analyze_signal_patterns now s = Some s).
Proof.
  unfold analyze_signal_patterns. split.
  - intros H. destruct (length (signal_strength_history s) <? 5)%nat; [done|].
    destruct (10 <=? length (signal_strength_history s))%nat eqn:E; [|done].
    apply Nat.leb_le in E. lia.
  - intros Hf. rewrite Hf.
    repeat case_match; try done; try (by rewrite breach_dropped).
    exfalso.
    match goal with H : _ && _ = true |- _ =>
      simpl in H; rewrite andb_false_r in H; discriminate
    end.
Qed.

Lemma Qsum_pos (l : list Q) : l <> [] -> Forall (fun q => 0 < q) l -> 0 < Qsum l.
Proof.
  intros Hne Hall. induction Hall as [|x l Hx Hl IH]; [done|].
  change (0 < x + Qsum l). destruct l as [|y l].
  - unfold Qsum. simpl. lra.
  - assert (0 < Qsum (y :: l)) by (by apply IH). lra.
Qed.

Lemma mean_pos (l : list Q) : l <> [] -> Forall (fun q => 0 < q) l -> 0 < mean l.
Proof.
  intros Hne Hall. unfold mean. apply Qlt_shift_div_l.
  - change 0 with (inject_Z 0). rewrite <- Zlt_Qlt. destruct l; [done|].
    simpl. lia.
  - rewrite Qmult_0_l. by apply Qsum_pos.
Qed.

Lemma np_mean_Some l m : np_mean l = Some m -> l <> [] /\ m = mean l.
Proof. unfold np_mean. destruct l; [done|]. by intros [= <-]. Qed.

Lemma wifi_values_pos (l : list signal_sample) :
  (forall smp q, smp ∈ l -> wifi smp = Some q -> 0 <= q) ->
  Forall (fun q => 0 < q) (wifi_values l).
Proof.
  intros H. apply Forall_forall. intros q Hq. unfold wifi_values in Hq.
  apply list_elem_of_omap in Hq as (smp & Hin & Hw).
  destruct (wifi smp) as [q'|] eqn:Hq'; [|done]. simpl in Hw.
  destruct (Qeq_bool q' 0) eqn:E; [done|]. simpl in Hw. injection Hw as <-.
  apply Qeq_bool_neq in E. pose proof (H smp q' Hin Hq'). lra.
Qed.

Lemma elem_of_drop_in {A} (x : A) n l : x ∈ drop n l -> x ∈ l.
Proof.
  intros H. apply list_elem_of_lookup in H as [i Hi].
  rewrite lookup_drop in Hi. by eapply list_elem_of_lookup_2.
Qed.

Lemma elem_of_take_in {A} (x : A) n l : x ∈ take n l -> x ∈ l.
Proof.
  intros H. apply elem_of_take in H as (i & Hi & _).
  by eapply list_elem_of_lookup_2.
Qed.

(** X22. When no wifi reading in the history is negative, the signal
    analysis always completes, and a signal_drop event it creates has a
    drop of less than 100 percent, hence a score below 10 and severity
    LOW: the signal monitor cannot raise anything above LOW, and so never
    enables frequency hopping. *)
Theorem signal_drop_events_low now s :
  (forall smp q, smp ∈ signal_strength_history s -> wifi smp = Some q -> 0 <= q) ->
  exists s',
    analyze_signal_patterns now s = Some s' /\
    (s' = s \/
     exists e,
       events s' = events s ++ [e] /\
       handlers s' = handlers s ++ [at_countermeasures e] /\
       ev_type e = signal_drop /\ ev_severity e = LOW /\
       exists dp,
         drop_percent (ev_details e) = Some dp /\
         signal_drop_threshold < dp /\ dp < 100).
Proof.
  intros Hpos. unfold analyze_signal_patterns.
  set (h := signal_strength_history s) in *.
  destruct (length h <? 5)%nat; [by eauto|].
  set (recent := drop (length h - 5) h).
  set (older := if (10 <=? length h)%nat then take 5 (drop (length h - 10) h)
                else []).
  destruct older as [|o0 older'] eqn:Ho; [by eauto|]. rewrite <- Ho.
  assert (Holder : forall smp, smp ∈ older -> smp ∈ h).
  { subst older. destruct (10 <=? length h)%nat; [|by intros ? ?%elem_of_nil].
    intros smp Hin. by eapply elem_of_drop_in, elem_of_take_in. }
  destruct (np_mean (wifi_values recent)) as [r|] eqn:Hr; [|by eauto].
  destruct (np_mean (wifi_values older)) as [o|] eqn:Hm; [|by eauto].
  apply np_mean_Some in Hr as [Hr1 ->]. apply np_mean_Some in Hm as [Hm1 ->].
  assert (Ho_pos : 0 < mean (wifi_values older)).
  { apply mean_pos; [done|]. apply wifi_values_pos. eauto. }
  assert (Hr_pos : 0 < mean (wifi_values recent)).
  { apply mean_pos; [done|]. apply wifi_values_pos.
    intros smp q Hin. apply Hpos. by eapply elem_of_drop_in. }
  set (o := mean (wifi_values older)) in *.
  set (r := mean (wifi_values recent)) in *.
  destruct (Qeq_bool o 0) eqn:E0.
  { apply Qeq_bool_eq in E0. lra. }
  set (dp := (o - r) / o * 100).
  assert (Hdp : dp < 100).
  { subst dp. assert ((o - r) / o < 1); [|lra].
    apply Qlt_shift_div_r; lra. }
  destruct (Qle_bool dp signal_drop_threshold) eqn:Eb; [by eauto|].
  simpl. eexists. split; [reflexivity|].
  destruct (jamming_detected s) eqn:Hf.
  - left. by apply breach_dropped.
  - right. destruct (breach_creates signal_drop
                       (mk_details (Some dp) None None None) now s Hf)
      as (E1 & E2 & _).
    eexists. split; [exact E1|]. split; [exact E2|]. split; [done|]. split.
    + simpl. apply bucket_low. unfold severity_scores. simpl.
      assert (dp / 10 < 10); [|lra]. apply Qlt_shift_div_r; lra.
    + exists dp. split; [done|]. split; [|done].
      apply Qnot_le_lt. intros Hle. apply Qle_bool_iff in Hle. congruence.
Qed.

(** *** The theorems at concrete controllers *)

Lemma backup_channel_choice_witness :
  (switch_to_backup_channel two_subscribers).1 = ch_cellular /\
  (switch_to_backup_channel (switch_to_backup_channel two_subscribers).2).1
  = ch_wifi.
Proof.
  destruct (backup_channel_choice two_subscribers) as (_ & _ & _ & H & _).
  split; [reflexivity|]. apply H. discriminate.
Defined.

Lemma handled_breach_returns_to_idle_witness :
  let s4 := run [a_breach network outage 1; a_progress 0 true;
                 a_progress 0 true; a_cooldown_elapsed 0] two_subscribers in
  idle s4 /\ events s4 = [mk_event network 1 outage LOW] /\
  length (notified s4) = 2%nat /\ length (evidence s4) = 1%nat.
Proof.
  intros s4.
  destruct (handled_breach_returns_to_idle network outage 1 two_subscribers)
    as (H1 & H2 & H3 & H4 & _); [split; reflexivity|].
  split; [exact H1|]. split; [exact H2|]. fold s4 in H3, H4.
  rewrite H3, H4. split; reflexivity.
Defined.

Lemma interference_events_critical_witness :
  exists e,
    events (monitor_interference 5
              (with_history (replicate 8 None ++ [Some 45; Some 80])))
    = [e] /\ ev_severity e = CRITICAL.
Proof.
  destruct (interference_events_critical 5
              (with_history (replicate 8 None ++ [Some 45; Some 80])))
    as [H _].
  destruct H as (e & He & _ & _ & Hs & _); [reflexivity|by vm_compute|].
  exists e. split; [exact He|exact Hs].
Defined.

Lemma gps_monitor_reports_witness :
  monitor_gps_jamming (mk_gps_status true 5) 3 two_subscribers = two_subscribers /\
  calculate_jamming_severity gps (mk_details None None None (Some true)) = LOW /\
  calculate_jamming_severity gps (mk_details None None None (Some false))
  = CRITICAL.
Proof.
  destruct (gps_monitor_reports (mk_gps_status true 5) 3 two_subscribers)
    as (_ & H1 & _).
  destruct (gps_monitor_reports (mk_gps_status true 80) 3 two_subscribers)
    as (_ & _ & H2).
  destruct (gps_monitor_reports (mk_gps_status false 5) 3 two_subscribers)
    as (_ & _ & H3).
  split; [apply H1; [reflexivity|by vm_compute]|].
  split; [apply H2; right; reflexivity|apply H3; left; reflexivity].
Defined.

Lemma network_monitor_reports_witness :
  100 / 3 <= nh_packet_loss (monitor_network_health dns_down 4 two_subscribers).1 /\
  events (monitor_network_health dns_down 4 two_subscribers).2
  = [mk_event network 4
       (mk_details None
          (Some (nh_packet_loss
                   (monitor_network_health dns_down 4 two_subscribers).1))
          None None) LOW].
Proof.
  destruct (network_monitor_reports dns_down 4 two_subscribers)
    as (_ & _ & _ & H).
  destruct H as (H1 & H2 & H3).
  - exists "1.1.1.1"%string. split; [set_solver|reflexivity].
  - split; [exact H1|]. rewrite H2. reflexivity.
Defined.

Lemma signal_history_bounded_witness :
  exists s',
    monitor_signal_strength (Some 45) (Some 60) 100 full_history = Some s' /\
    length (signal_strength_history s') = 100%nat /\
    last (signal_strength_history s') = Some (mk_sample 100 (Some 45) (Some 60)).
Proof.
  eexists. split; [vm_compute; reflexivity|].
  match goal with |- context [signal_strength_history ?s'] =>
    destruct (signal_history_bounded (Some 45) (Some 60) 100 full_history s')
      as (_ & H2 & _ & H4)
  end.
  - vm_compute. lia.
  - vm_compute. reflexivity.
  - split; [|exact H2]. rewrite H4 by reflexivity. reflexivity.
Defined.

Lemma signal_analysis_needs_ten_witness :
  analyze_signal_patterns 9 (with_history (replicate 9 (Some 45)))
  = Some (with_history (replicate 9 (Some 45))).
Proof.
  apply (proj1 (signal_analysis_needs_ten 9
                  (with_history (replicate 9 (Some 45))))).
  vm_compute. lia.
Defined.

Lemma signal_drop_events_low_witness :
  exists s',
    analyze_signal_patterns 10 falling_history = Some s' /\
    (s' = falling_history \/
     exists e,
       events s' = events falling_history ++ [e] /\
       handlers s' = handlers falling_history ++ [at_countermeasures e] /\
       ev_type e = signal_drop /\ ev_severity e = LOW /\
       exists dp,
         drop_percent (ev_details e) = Some dp /\
         signal_drop_threshold < dp /\ dp < 100).
Proof.
  apply (signal_drop_events_low 10 falling_history).
  intros smp q Hin Hw. simpl in Hin.
  rewrite !elem_of_cons, elem_of_nil in Hin.
  repeat (destruct Hin as [->|Hin]; [injection Hw as <-; discriminate|]).
  destruct Hin.
Defined.

(** The fall from 80 to 45 is a drop of 43.75 percent. *)
Example falling_history_event :
  exists s' e dp,
    analyze_signal_patterns 10 falling_history = Some s' /\
    events s' = [e] /\ ev_severity e = LOW /\
    drop_percent (ev_details e) = Some dp /\ dp == 43.75.
Proof.
  eexists _, _, _. split; [vm_compute; reflexivity|].
  split; [reflexivity|]. split; [reflexivity|]. split; reflexivity.
Qed.

End JammingMore.
